(** * Adaptive bitrate player: the control logic of [src/App.tsx]

    A shallow embedding of the manifest parser, the quality selector, the
    segment loader and the event log of the player, and the properties its
    specification states about them.

    Numbers.  A JavaScript number is an IEEE 754 binary64 value.  The
    quantities of the player (the bandwidth of a level and of the network,
    packet loss, buffered seconds, thresholds) are kept as such: they are
    Rocq's primitive [float], whose operations are the binary64 ones, and
    [num] is the binary64 value of an integer, rounded to nearest as
    [parseInt] rounds.  The numbers that the code uses to count (array
    indices, array lengths, the retry counter) are [Z] or [nat].

    Strings.  A string is a [string] of code units below 256. *)

From Stdlib Require Import ZArith Lia Bool List Ascii String Floats.
From Stdlib Require Import Sorted Permutation DecimalString Zpower.
Import ListNotations.

Set Warnings "-inexact-float".

#[local] Open Scope Z_scope.

(** ** Numbers *)

(** The binary64 value of an integer (round to nearest, ties to even). *)
Definition num (z : Z) : float :=
  SF2Prim (binary_normalize prec emax z 0 false).

(** [a > b] on numbers. *)
Definition gt (a b : float) : bool := PrimFloat.ltb b a.

(** ** Data model *)

Inductive LogType : Type := info | warning | error.

Record QualityLevel : Type := mkQualityLevel {
  id : string;
  bandwidth : float;
  resolution : string;
  url : string;
  segments : list string
}.

Record NetworkCondition : Type := mkNetworkCondition {
  nc_bandwidth : float;
  latency : float;
  packetLoss : float
}.

Record BufferHealth : Type := mkBufferHealth {
  currentBuffer : float;
  targetBuffer : float;
  isStarving : bool
}.

(** ** Results of code that can throw *)

Inductive Exn : Type :=
| TypeError (what : string)
| Error (message : string).

Inductive result (A : Type) : Type :=
| Ok (a : A)
| Throw (e : Exn).
Arguments Ok {A} a.
Arguments Throw {A} e.

Definition rbind {A B} (m : result A) (k : A -> result B) : result B :=
  match m with
  | Ok a => k a
  | Throw e => Throw e
  end.

Declare Scope result_scope.
Delimit Scope result_scope with result.
Notation "'let?' x := m 'in' k" := (rbind m (fun x => k))
  (at level 10, x name, m at level 100, k at level 200) : result_scope.

(** ** Quality selection *)

Module Selector.

(** [qualityLevels[i]], followed by a property read: reading a property of
    [undefined], which is what an index outside the array yields, throws. *)
Definition at_index (qualityLevels : list QualityLevel) (i : nat)
  : result QualityLevel :=
  match nth_error qualityLevels i with
  | Some q => Ok q
  | None => Throw (TypeError "Cannot read properties of undefined")
  end.

Definition switchUpThreshold : float := 1.4%float.
Definition switchDownThreshold : float := 0.8%float.

(** [Math.max(0, Math.min(currentQuality, qualityLevels.length - 1))] *)
Definition safeCurrentQuality (qualityLevels : list QualityLevel)
  (currentQuality : Z) : Z :=
  Z.max 0 (Z.min currentQuality (Z.of_nat (List.length qualityLevels) - 1)).

(** [networkCondition.bandwidth * (1 - networkCondition.packetLoss)] *)
Definition availableBandwidth (networkCondition : NetworkCondition) : float :=
  (nc_bandwidth networkCondition * (1 - packetLoss networkCondition))%float.

(** [bufferHealth.currentBuffer / bufferHealth.targetBuffer] *)
Definition bufferRatio (bufferHealth : BufferHealth) : float :=
  (currentBuffer bufferHealth / targetBuffer bufferHealth)%float.

Definition canSustain (available : float) (q : QualityLevel) : bool :=
  gt available (bandwidth q * switchDownThreshold)%float.

Definition canUpgrade (available : float) (q : QualityLevel) : bool :=
  gt available (bandwidth q * switchUpThreshold)%float.

(** The loop [for (let i = qualityLevels.length - 1; i >= 0; i--)]:
    [scan n] runs the iterations [i = n - 1, ..., 0] and then the fallback
    [return 0]. *)
Fixpoint scan (qualityLevels : list QualityLevel) (available ratio : float)
  (safe : Z) (n : nat) : result Z :=
  match n with
  | O => Ok 0
  | S i =>
      (let? q := at_index qualityLevels i in
       if (Z.of_nat i =? safe) && canSustain available q then Ok (Z.of_nat i)
       else if (Z.of_nat i >? safe) && canUpgrade available q
                && gt ratio 1.2%float then Ok (Z.of_nat i)
       else if (Z.of_nat i <? safe) && canSustain available q then Ok (Z.of_nat i)
       else scan qualityLevels available ratio safe i)%result
  end.

Definition selectOptimalQuality (qualityLevels : list QualityLevel)
  (networkCondition : NetworkCondition) (bufferHealth : BufferHealth)
  (currentQuality : Z) : result Z :=
  if (List.length qualityLevels =? 0)%nat then Ok 0
  else
    let safe := safeCurrentQuality qualityLevels currentQuality in
    let available := availableBandwidth networkCondition in
    let ratio := bufferRatio bufferHealth in
    if isStarving bufferHealth && (safe >? 0) then Ok (Z.max 0 (safe - 1))
    else scan qualityLevels available ratio safe (List.length qualityLevels).

(** The ladder, network and buffer values of the player's own tests. *)
Definition mockQualities : list QualityLevel :=
  [ mkQualityLevel "quality_800000_360p" 800000%float "360p" "" [];
    mkQualityLevel "quality_1400000_480p" 1400000%float "480p" "" [];
    mkQualityLevel "quality_2800000_720p" 2800000%float "720p" "" [] ].

Definition goodNetwork : NetworkCondition :=
  mkNetworkCondition 4000000%float 20%float 0.01%float.
Definition healthyBuffer : BufferHealth :=
  mkBufferHealth 40%float 30%float false.
Definition poorNetwork : NetworkCondition :=
  mkNetworkCondition 500000%float 200%float 0.1%float.
Definition starvingBuffer : BufferHealth :=
  mkBufferHealth 2%float 30%float true.

End Selector.

(** The selector as the earlier revisions of the file kept with the sources
    have it: the same scan, on [currentQuality] as it comes. *)
Module EarlierSelector.
Import Selector.

Definition selectOptimalQuality (qualityLevels : list QualityLevel)
  (networkCondition : NetworkCondition) (bufferHealth : BufferHealth)
  (currentQuality : Z) : result Z :=
  let available := availableBandwidth networkCondition in
  let ratio := bufferRatio bufferHealth in
  if isStarving bufferHealth && (currentQuality >? 0)
  then Ok (Z.max 0 (currentQuality - 1))
  else scan qualityLevels available ratio currentQuality
            (List.length qualityLevels).

End EarlierSelector.

(** ** Strings *)

Module Str.

#[local] Open Scope string_scope.

Definition LF : ascii := ascii_of_nat 10.

(** [s.split('\n')]: the pieces between line feeds; a string without one is
    its own single piece. *)
Fixpoint split_lines (s : string) : list string :=
  match s with
  | EmptyString => [EmptyString]
  | String c t =>
      if Ascii.eqb c LF then EmptyString :: split_lines t
      else match split_lines t with
           | h :: r => String c h :: r
           | [] => [String c EmptyString]
           end
  end.

(** [lines.join('\n')], used to write the multi-line literals of the source. *)
Definition unlines (ls : list string) : string :=
  String.concat (String LF EmptyString) ls.

(** White space and line terminators among the code units below 256:
    TAB, LF, VT, FF, CR, SP and NBSP. *)
Definition isWhiteSpace (c : ascii) : bool :=
  let n := nat_of_ascii c in
  ((9 <=? n) && (n <=? 13) || (n =? 32) || (n =? 160))%nat.

Fixpoint trimStart (s : string) : string :=
  match s with
  | EmptyString => EmptyString
  | String c t => if isWhiteSpace c then trimStart t else s
  end.

Definition reverse (s : string) : string :=
  string_of_list_ascii (rev (list_ascii_of_string s)).

Definition trimEnd (s : string) : string := reverse (trimStart (reverse s)).

(** [s.trim()] *)
Definition trim (s : string) : string := trimEnd (trimStart s).

(** A string used as a condition: the empty string is the only false one. *)
Definition truthy (s : string) : bool := negb (s =? "").

(** [s.startsWith(p)] *)
Definition startsWith (s p : string) : bool := String.prefix p s.

(** What follows [p] at the head of [s], when [s] starts with [p]. *)
Fixpoint after (p s : string) : option string :=
  match p, s with
  | EmptyString, _ => Some s
  | String a p', String b s' => if Ascii.eqb a b then after p' s' else None
  | String _ _, EmptyString => None
  end.

(** [\d] *)
Definition isDigit (c : ascii) : bool :=
  let n := nat_of_ascii c in ((48 <=? n) && (n <=? 57))%nat.

(** [\d*], greedy: the longest run of digits at the head of [s], and the rest. *)
Fixpoint span_digits (s : string) : string * string :=
  match s with
  | EmptyString => (EmptyString, EmptyString)
  | String c t =>
      if isDigit c then let (d, r) := span_digits t in (String c d, r)
      else (EmptyString, s)
  end.

(** A string of digits only. *)
Fixpoint all_digits (s : string) : bool :=
  match s with
  | EmptyString => true
  | String c t => isDigit c && all_digits t
  end.

(** [re.exec(s)] for a pattern without flags: [re_here] tries the pattern at
    the head of a string, and the search takes the leftmost position where it
    matches.  The result is capture group 1. *)
Fixpoint exec (re_here : string -> option string) (s : string) : option string :=
  match re_here s with
  | Some m => Some m
  | None => match s with
            | EmptyString => None
            | String _ t => exec re_here t
            end
  end.

(** The value of a run of decimal digits, read left to right from [acc]. *)
Fixpoint digits_value (acc : Z) (s : string) : Z :=
  match s with
  | EmptyString => acc
  | String c t => digits_value (10 * acc + (Z.of_nat (nat_of_ascii c) - 48)) t
  end.

(** [parseInt(s)] on a run of decimal digits: the number nearest to the
    integer the digits denote, which is that integer below 2^53 and
    [Infinity] from about 309 digits on. *)
Definition parseInt (s : string) : float := num (digits_value 0 s).

End Str.

(** ** Manifest parsing *)

Module Manifest.
Import Str.

#[local] Open Scope string_scope.

Definition MOCK_HLS_MANIFEST : string := unlines
  [ "#EXTM3U";
    "#EXT-X-VERSION:3";
    "#EXT-X-STREAM-INF:BANDWIDTH=800000,RESOLUTION=640x360";
    "stream_360p.m3u8";
    "#EXT-X-STREAM-INF:BANDWIDTH=1400000,RESOLUTION=854x480";
    "stream_480p.m3u8";
    "#EXT-X-STREAM-INF:BANDWIDTH=2800000,RESOLUTION=1280x720";
    "stream_720p.m3u8";
    "#EXT-X-STREAM-INF:BANDWIDTH=5000000,RESOLUTION=1920x1080";
    "stream_1080p.m3u8" ].

Definition segment_playlist (tag : string) : string := unlines
  [ "#EXTM3U";
    "#EXT-X-VERSION:3";
    "#EXT-X-TARGETDURATION:10";
    "#EXTINF:10.0,";
    "segment_" ++ tag ++ "_001.ts";
    "#EXTINF:10.0,";
    "segment_" ++ tag ++ "_002.ts";
    "#EXTINF:10.0,";
    "segment_" ++ tag ++ "_003.ts";
    "#EXT-X-ENDLIST" ].

(** The object literal [MOCK_SEGMENT_PLAYLISTS], as its own properties in
    the order they are written. *)
Definition MOCK_SEGMENT_PLAYLISTS : list (string * string) :=
  [ ("stream_360p.m3u8", segment_playlist "360p");
    ("stream_480p.m3u8", segment_playlist "480p");
    ("stream_720p.m3u8", segment_playlist "720p");
    ("stream_1080p.m3u8", segment_playlist "1080p") ].

(** The property names an object literal inherits from [Object.prototype];
    each of them holds a function, an object or an accessor value, never a
    string. *)
Definition inherited_properties : list string :=
  [ "constructor"; "toString"; "toLocaleString"; "valueOf"; "hasOwnProperty";
    "isPrototypeOf"; "propertyIsEnumerable"; "__proto__"; "__defineGetter__";
    "__defineSetter__"; "__lookupGetter__"; "__lookupSetter__" ].

Fixpoint own_property (o : list (string * string)) (k : string) : option string :=
  match o with
  | [] => None
  | (k', v) :: o' => if k =? k' then Some v else own_property o' k
  end.

Definition mem_string (k : string) (l : list string) : bool :=
  existsb (String.eqb k) l.

(** [s.split('\n').filter(line => line.trim())] *)
Definition non_blank_lines (s : string) : list string :=
  filter (fun line => truthy (trim line)) (split_lines s).

(** The loop of [parseSegmentPlaylist] over [lines], seen from index [i]:
    the argument is [lines.slice(i)], so [lines[i]] is its head,
    [i + 1 < lines.length] says that its tail is not empty and
    [lines[i + 1]] is the head of the tail. *)
Fixpoint collect_segments (ls : list string) : list string :=
  match ls with
  | [] => []
  | line :: rest =>
      match rest with
      | next :: _ =>
          if startsWith line "#EXTINF:" then next :: collect_segments rest
          else collect_segments rest
      | [] => []
      end
  end.

Definition parseSegmentPlaylist (playlistUrl : string) : result (list string) :=
  match own_property MOCK_SEGMENT_PLAYLISTS playlistUrl with
  | Some content =>
      if truthy content then Ok (collect_segments (non_blank_lines content))
      else Throw (Error ("Playlist not found: " ++ playlistUrl))
  | None =>
      if mem_string playlistUrl inherited_properties
      then Throw (TypeError "content.split is not a function")
      else Throw (Error ("Playlist not found: " ++ playlistUrl))
  end.

(** [/BANDWIDTH=(\d+)/] at the head of a string. *)
Definition bandwidthRegex_here (s : string) : option string :=
  match after "BANDWIDTH=" s with
  | Some r => let (d, _) := span_digits r in
              if truthy d then Some d else None
  | None => None
  end.

(** [/RESOLUTION=(\d+x\d+)/] at the head of a string.  The first [\d+] is
    greedy and what follows it must be [x], so giving digits back never
    helps: the only candidate is the longest run. *)
Definition resolutionRegex_here (s : string) : option string :=
  match after "RESOLUTION=" s with
  | Some r =>
      let (w, r1) := span_digits r in
      match r1 with
      | String c r2 =>
          let (h, _) := span_digits r2 in
          if truthy w && Ascii.eqb c "x" && truthy h
          then Some (w ++ "x" ++ h) else None
      | EmptyString => None
      end
  | None => None
  end.

(** [bandwidthRegex.exec(line)] and [resolutionRegex.exec(line)], capture 1 *)
Definition bandwidthMatch (line : string) : option string :=
  exec bandwidthRegex_here line.
Definition resolutionMatch (line : string) : option string :=
  exec resolutionRegex_here line.

(** The object pushed for one entry. *)
Definition quality_of (bw res playlistUrl : string) (segs : list string)
  : QualityLevel :=
  {| id := "quality_" ++ bw ++ "_" ++ res;
     bandwidth := parseInt bw;
     resolution := res;
     url := playlistUrl;
     segments := segs |}.

(** The loop of [parseHLSManifest], seen from index [i] as above.  The
    levels are pushed in the order of the lines; the first playlist that
    does not load ends the loop with its exception. *)
Fixpoint parse_entries (ls : list string) : result (list QualityLevel) :=
  match ls with
  | [] => Ok []
  | line :: rest =>
      if startsWith line "#EXT-X-STREAM-INF:" then
        match bandwidthMatch line, resolutionMatch line, rest with
        | Some bw, Some res, playlistUrl :: _ =>
            (let? segs := parseSegmentPlaylist playlistUrl in
             let? more := parse_entries rest in
             Ok (quality_of bw res playlistUrl segs :: more))%result
        | _, _, _ => parse_entries rest
        end
      else parse_entries rest
  end.

(** [Array.prototype.sort] with a comparison function: the sort is stable,
    and for a comparison that orders by a key every stable sort returns the
    same array.  It is written here as an insertion from the right, which
    puts [x] before the first element it does not compare greater than:
    [x] goes past [y] when the comparison gives a number above 0, and a
    comparison that gives [NaN] counts as 0. *)
Section Sort.
Context {A : Type} (compare : A -> A -> float).

Fixpoint insert (x : A) (l : list A) : list A :=
  match l with
  | [] => [x]
  | y :: l' =>
      if PrimFloat.ltb 0%float (compare x y) then y :: insert x l' else x :: l
  end.

Definition sort (l : list A) : list A := fold_right insert [] l.
End Sort.

(** [(a, b) => a.bandwidth - b.bandwidth] *)
Definition by_bandwidth (a b : QualityLevel) : float :=
  (bandwidth a - bandwidth b)%float.

Definition parseHLSManifest (manifestContent : string)
  : result (list QualityLevel) :=
  (let? qualityLevels := parse_entries (non_blank_lines manifestContent) in
   Ok (sort by_bandwidth qualityLevels))%result.

(** An entry that the loop turns into a level: a stream-info line that
    carries both attributes and has a line after it. *)
Definition has_match (m : option string) : bool :=
  match m with
  | Some _ => true
  | None => false
  end.

Definition is_valid_entry (line : string) (rest : list string) : bool :=
  startsWith line "#EXT-X-STREAM-INF:"
  && has_match (bandwidthMatch line)
  && has_match (resolutionMatch line)
  && match rest with
     | [] => false
     | _ :: _ => true
     end.

(** The valid entries among the lines, each with the line that follows it. *)
Fixpoint valid_entries (ls : list string) : list (string * string) :=
  match ls with
  | [] => []
  | line :: rest =>
      if is_valid_entry line rest
      then (line, hd "" rest) :: valid_entries rest
      else valid_entries rest
  end.

(** Ascending by bandwidth: no level needs more than a later one. *)
Definition bandwidth_le (a b : QualityLevel) : Prop :=
  PrimFloat.leb (bandwidth a) (bandwidth b) = true.

Definition ascending (l : list QualityLevel) : Prop :=
  StronglySorted bandwidth_le l.

(** The ladder of the mock manifest. *)
Definition mock_ladder : list QualityLevel :=
  [ quality_of "800000" "640x360" "stream_360p.m3u8"
      ["segment_360p_001.ts"; "segment_360p_002.ts"; "segment_360p_003.ts"];
    quality_of "1400000" "854x480" "stream_480p.m3u8"
      ["segment_480p_001.ts"; "segment_480p_002.ts"; "segment_480p_003.ts"];
    quality_of "2800000" "1280x720" "stream_720p.m3u8"
      ["segment_720p_001.ts"; "segment_720p_002.ts"; "segment_720p_003.ts"];
    quality_of "5000000" "1920x1080" "stream_1080p.m3u8"
      ["segment_1080p_001.ts"; "segment_1080p_002.ts"; "segment_1080p_003.ts"] ].

(** A manifest whose only entry has no [RESOLUTION]. *)
Definition manifest_without_resolution : string := unlines
  [ "#EXTM3U";
    "#EXT-X-STREAM-INF:BANDWIDTH=800000";
    "stream_360p.m3u8" ].

(** A manifest that lists the same bandwidth and resolution twice, as a
    playlist with a backup rendition does. *)
Definition manifest_with_backup : string := unlines
  [ "#EXTM3U";
    "#EXT-X-STREAM-INF:BANDWIDTH=800000,RESOLUTION=640x360";
    "stream_360p.m3u8";
    "#EXT-X-STREAM-INF:BANDWIDTH=800000,RESOLUTION=640x360";
    "stream_480p.m3u8" ].

(** A manifest whose two bandwidths are different integers with the same
    nearest number, 9007199254740992. *)
Definition manifest_beyond_2_53 : string := unlines
  [ "#EXTM3U";
    "#EXT-X-STREAM-INF:BANDWIDTH=9007199254740993,RESOLUTION=640x360";
    "stream_360p.m3u8";
    "#EXT-X-STREAM-INF:BANDWIDTH=9007199254740992,RESOLUTION=854x480";
    "stream_480p.m3u8" ].

End Manifest.

(** ** Numbers that are not negative *)

Module Binary64.

(** The specification's view of a number (sign, mantissa, exponent) for
    +0, a positive finite number or +Infinity. *)
Definition nonneg (x : spec_float) : bool :=
  match x with
  | S754_zero false | S754_finite false _ _ | S754_infinity false => true
  | _ => false
  end.

(** The same for a zero, a finite number or an infinity of sign [s]. *)
Definition signed (s : bool) (x : spec_float) : bool :=
  match x with
  | S754_zero s' | S754_finite s' _ _ | S754_infinity s' => Bool.eqb s s'
  | S754_nan => false
  end.

Definition positive_float (x : spec_float) : bool :=
  match x with
  | S754_finite false _ _ | S754_infinity false => true
  | _ => false
  end.

Definition SFzero : spec_float := S754_zero false.

(** A number that is +0, positive or +Infinity. *)
Definition nonneg_number (x : float) : Prop := nonneg (Prim2SF x) = true.

End Binary64.

(** ** Segment loading *)

Module Loader.

#[local] Open Scope string_scope.

(** [new Blob(parts, { type })] *)
Record Blob : Type := mkBlob {
  blob_parts : list string;
  blob_type : string
}.

(** The object [loadSegment] resolves to; an absent property is [None]. *)
Record LoadResult : Type := mkLoadResult {
  success : bool;
  data : option Blob;
  error : option string
}.

(** What a call does besides returning: the timers it waits for and the
    warnings it prints, in the order they happen. *)
Inductive Event : Type :=
| NetworkDelay (ms : float)
| Backoff (ms : Z)
| Warn (message : string).

Record World : Type := mkWorld {
  draws : nat;
  trace : list Event
}.

(** Computations that draw random numbers, leave events and may throw.
    What a computation did before it threw stays done. *)
Definition M (A : Type) : Type := World -> result A * World.

Definition ret {A} (a : A) : M A := fun w => (Ok a, w).

Definition bind {A B} (m : M A) (k : A -> M B) : M B :=
  fun w => match m w with
           | (Ok a, w') => k a w'
           | (Throw e, w') => (Throw e, w')
           end.

Definition throw {A} (e : Exn) : M A := fun w => (Throw e, w).

(** [try { m } catch (error) { handler }] *)
Definition try_catch {A} (m : M A) (handler : Exn -> M A) : M A :=
  fun w => match m w with
           | (Ok a, w') => (Ok a, w')
           | (Throw e, w') => handler e w'
           end.

Definition emit (e : Event) : M unit :=
  fun w => (Ok tt, mkWorld (draws w) (trace w ++ [e])%list).

Declare Scope loader_scope.
Delimit Scope loader_scope with loader.
Notation "x <- m ;; k" := (bind m (fun x => k))
  (at level 100, m at next level, right associativity) : loader_scope.
Notation "m ;;; k" := (bind m (fun _ => k))
  (at level 100, right associativity) : loader_scope.

(** The decimal text of a counter, as a template literal prints it. *)
Definition show (n : nat) : string := NilEmpty.string_of_uint (Nat.to_uint n).

(** [error instanceof Error ? error.message : 'Unknown error occurred']:
    every exception of this model is an [Error] object. *)
Definition exn_message (e : Exn) : string :=
  match e with
  | TypeError m => m
  | Error m => m
  end.

Section WithRandom.

(** [random_values k] is what the [k]-th call of [Math.random()] returns. *)
Variable random_values : nat -> float.

Definition Math_random : M float :=
  fun w => (Ok (random_values (draws w)), mkWorld (S (draws w)) (trace w)).

Variable segmentUrl : string.
Variable networkCondition : NetworkCondition.
Variable retries : nat.

(** The body of the [try] block. *)
Definition try_body : M (option LoadResult) :=
  (jitter <- Math_random ;;
   emit (NetworkDelay (latency networkCondition + jitter * 100)%float) ;;;
   chance <- Math_random ;;
   if PrimFloat.ltb chance 0.05%float
   then throw (Error ("Network error loading " ++ segmentUrl))
   else
     let mockData := mkBlob ["video_segment_" ++ segmentUrl] "video/mp2t" in
     ret (Some (mkLoadResult true (Some mockData) None)))%loader.

(** The body of the [catch] block; [None] leaves the block without
    returning, so that the loop goes on. *)
Definition catch_body (attempt : nat) (e : Exn) : M (option LoadResult) :=
  (let errorMessage := exn_message e in
   if (Z.of_nat attempt =? Z.of_nat retries - 1)%Z then
     ret (Some (mkLoadResult false None
       (Some ("Failed to load " ++ segmentUrl ++ " after " ++ show retries
              ++ " attempts: " ++ errorMessage))))
   else
     emit (Warn ("Segment load attempt " ++ show (attempt + 1) ++ " failed: "
                 ++ errorMessage ++ ". Retrying...")) ;;;
     emit (Backoff (2 ^ Z.of_nat attempt * 1000)%Z) ;;;
     ret None)%loader.

(** [for (let attempt = 0; attempt < retries; attempt++)] from [attempt]
    on, with [remaining = retries - attempt] iterations to go, and the
    [return] that follows the loop. *)
Fixpoint retry_loop (remaining attempt : nat) : M LoadResult :=
  match remaining with
  | O => ret (mkLoadResult false None (Some "Unexpected error in retry loop"))
  | S remaining' =>
      (r <- try_catch try_body (catch_body attempt) ;;
       match r with
       | Some res => ret res
       | None => retry_loop remaining' (S attempt)
       end)%loader
  end.

End WithRandom.

(** The parameter [retries = 3]: an argument that is left out is [None]. *)
Definition retries_or_default (retries : option nat) : nat :=
  match retries with
  | Some n => n
  | None => 3%nat
  end.

Definition loadSegment (random_values : nat -> float) (segmentUrl : string)
  (networkCondition : NetworkCondition) (retries : option nat) : M LoadResult :=
  let retries := retries_or_default retries in
  retry_loop random_values segmentUrl networkCondition retries retries 0.

(** The state a call starts from. *)
Definition start : World := mkWorld 0 [].

(** The exception of the fault injection, and the two results a call with
    at least one attempt can end in. *)
Definition network_error (segmentUrl : string) : string :=
  "Network error loading " ++ segmentUrl.

Definition loaded (segmentUrl : string) : LoadResult :=
  mkLoadResult true
    (Some (mkBlob ["video_segment_" ++ segmentUrl] "video/mp2t")) None.

Definition gave_up (segmentUrl : string) (retries : nat) : LoadResult :=
  mkLoadResult false None
    (Some ("Failed to load " ++ segmentUrl ++ " after " ++ show retries
           ++ " attempts: " ++ network_error segmentUrl)).

(** The events of [remaining] failed attempts, the first of which is
    attempt number [attempt] and draws its jitter at [d]: each waits for
    the network; each but the last then warns and backs off. *)
Fixpoint failed_attempts (random_values : nat -> float) (segmentUrl : string)
  (networkCondition : NetworkCondition) (remaining attempt d : nat)
  : list Event :=
  match remaining with
  | O => []
  | S remaining' =>
      NetworkDelay (latency networkCondition + random_values d * 100)%float
      :: match remaining' with
         | O => []
         | S _ =>
             Warn ("Segment load attempt " ++ show (attempt + 1) ++ " failed: "
                   ++ network_error segmentUrl ++ ". Retrying...")
             :: Backoff (2 ^ Z.of_nat attempt * 1000)%Z
             :: failed_attempts random_values segmentUrl networkCondition
                  remaining' (S attempt) (S (S d))
         end
  end.

(** The number of attempts a trace shows: each attempt waits once for the
    network. *)
Definition attempts_made (t : list Event) : nat :=
  List.length (filter (fun e => match e with NetworkDelay _ => true | _ => false end) t).

(** The backoff waits of a trace, in milliseconds. *)
Fixpoint backoffs (t : list Event) : list Z :=
  match t with
  | [] => []
  | Backoff ms :: t' => ms :: backoffs t'
  | _ :: t' => backoffs t'
  end.

Definition total (l : list Z) : Z := fold_right Z.add 0 l.

End Loader.

(** ** Event log *)

Module Telemetry.

#[local] Open Scope string_scope.

Record LogEntry : Type := mkLogEntry {
  log_id : string;
  log_message : string;
  log_timestamp : string;
  log_type : LogType
}.

Record BufferEvent : Type := mkBufferEvent {
  event_id : string;
  event_timestamp : string;
  event_type : LogType;
  event_message : string
}.

Record PlayerMetrics : Type := mkPlayerMetrics {
  currentQuality : Z;
  avgBandwidth : float;
  droppedFrames : Z;
  switchCount : Z;
  bufferEvents : list BufferEvent
}.

(** The two pieces of component state that [logEvent] updates. *)
Record PlayerState : Type := mkPlayerState {
  logs : list LogEntry;
  metrics : PlayerMetrics
}.

(** The state the component is created with. *)
Definition initial : PlayerState :=
  mkPlayerState [] (mkPlayerMetrics 0 0%float 0 0 []).

(** What one call reads from outside: the clock and two fresh UUIDs. *)
Record Env : Type := mkEnv {
  now : string;
  uuid_log : string;
  uuid_event : string
}.

(** [l.slice(-n)] for a positive [n]: the last [n] elements, or all of [l]
    when it has fewer. *)
Definition slice_last {A} (n : nat) (l : list A) : list A :=
  skipn (List.length l - n) l.

Definition setLogs (f : list LogEntry -> list LogEntry) (st : PlayerState)
  : PlayerState :=
  mkPlayerState (f (logs st)) (metrics st).

Definition setMetrics (f : PlayerMetrics -> PlayerMetrics) (st : PlayerState)
  : PlayerState :=
  mkPlayerState (logs st) (f (metrics st)).

(** [logEvent]; the line it also prints on the console is left out. *)
Definition logEvent (env : Env) (message : string) (type : LogType)
  (st : PlayerState) : PlayerState :=
  let timestamp := now env in
  let logEntry :=
    mkLogEntry (timestamp ++ "_" ++ substring 0 8 (uuid_log env))
               message timestamp type in
  let st := setLogs (fun prev => (slice_last 49 prev ++ [logEntry])%list) st in
  match type with
  | warning | error =>
      let bufferEvent :=
        mkBufferEvent (timestamp ++ "_" ++ substring 0 8 (uuid_event env))
                      timestamp type message in
      setMetrics (fun prev =>
        mkPlayerMetrics (currentQuality prev) (avgBandwidth prev)
          (droppedFrames prev) (switchCount prev)
          (slice_last 19 (bufferEvents prev) ++ [bufferEvent])%list) st
  | info => st
  end.

(** One call of [logEvent], with what it read from outside. *)
Record Call : Type := mkCall {
  call_env : Env;
  call_message : string;
  call_type : LogType
}.

Definition log_call (st : PlayerState) (c : Call) : PlayerState :=
  logEvent (call_env c) (call_message c) (call_type c) st.

(** The calls of a history, oldest first, applied to a state. *)
Definition record_all (calls : list Call) (st : PlayerState) : PlayerState :=
  fold_left log_call calls st.

(** The entry and the buffer event that a call appends. *)
Definition entry_of (c : Call) : LogEntry :=
  mkLogEntry (now (call_env c) ++ "_" ++ substring 0 8 (uuid_log (call_env c)))
             (call_message c) (now (call_env c)) (call_type c).

Definition event_of (c : Call) : BufferEvent :=
  mkBufferEvent (now (call_env c) ++ "_" ++ substring 0 8 (uuid_event (call_env c)))
                (now (call_env c)) (call_type c) (call_message c).

Definition is_severe (c : Call) : bool :=
  match call_type c with
  | warning | error => true
  | info => false
  end.

End Telemetry.

(** ** Derived notions for the selector *)

Module Selection.
Import Selector.

(** The three tests of one iteration of the scan, at index [i] on level
    [q]: the iteration returns [i] when one of them holds. *)
Definition accepts (available ratio : float) (safe : Z) (i : nat)
  (q : QualityLevel) : bool :=
  (Z.of_nat i =? safe) && canSustain available q
  || (Z.of_nat i >? safe) && canUpgrade available q && gt ratio 1.2%float
  || (Z.of_nat i <? safe) && canSustain available q.

(** The level at an index passes the 0.8 test, or the 1.4 test. *)
Definition sustainable_at (qualityLevels : list QualityLevel)
  (available : float) (i : nat) : bool :=
  match nth_error qualityLevels i with
  | Some q => canSustain available q
  | None => false
  end.

Definition upgradable_at (qualityLevels : list QualityLevel)
  (available : float) (i : nat) : bool :=
  match nth_error qualityLevels i with
  | Some q => canUpgrade available q
  | None => false
  end.

(** The "Fair" entry of the simulated network conditions. *)
Definition fairNetwork : NetworkCondition :=
  mkNetworkCondition 1500000%float 100%float 0.02%float.

End Selection.

(** ** Derived notions for the manifest parser *)

Module Entries.
Import Str Manifest.

(** The names under which [MOCK_SEGMENT_PLAYLISTS] holds a playlist. *)
Definition known_playlists : list string := map fst MOCK_SEGMENT_PLAYLISTS.

(** The [#EXTINF:] lines that have a line after them. *)
Definition tag_lines (ls : list string) : list string :=
  filter (fun line => startsWith line "#EXTINF:") (removelast ls).

(** Every bandwidth of a list of levels is +0, positive or +Infinity. *)
Definition nonneg_bandwidths (l : list QualityLevel) : Prop :=
  Forall (fun q => Binary64.nonneg_number (bandwidth q)) l.

Definition same_bandwidth (b : float) (q : QualityLevel) : bool :=
  PrimFloat.eqb (bandwidth q) b.

End Entries.

(** ** Derived notions for the segment loader *)

Module Attempts.
Import Loader.

#[local] Open Scope string_scope.

(** The events of [n] attempts that fail and are retried, the first of
    which is attempt number [attempt] and draws its jitter at [d]: each
    waits for the network, warns and backs off. *)
Fixpoint retried_attempts (random_values : nat -> float) (segmentUrl : string)
  (networkCondition : NetworkCondition) (n attempt d : nat) : list Event :=
  match n with
  | O => []
  | S n' =>
      NetworkDelay (latency networkCondition + random_values d * 100)%float
      :: Warn ("Segment load attempt " ++ show (attempt + 1) ++ " failed: "
               ++ network_error segmentUrl ++ ". Retrying...")
      :: Backoff (2 ^ Z.of_nat attempt * 1000)%Z
      :: retried_attempts random_values segmentUrl networkCondition
           n' (S attempt) (S (S d))
  end.


End Attempts.

(** ** The player's control state *)

Module Player.
Import Selector.

(** [video.buffered]: the buffered ranges as (start, end) pairs, in the
    order of their index. *)
Definition TimeRanges : Type := list (float * float).

(** The loop of the buffer monitor: the first range that holds the play
    position gives what is buffered ahead of it; [currentBuffer] stays 0
    when no range does. *)
Fixpoint buffered_ahead (buffered : TimeRanges) (currentTime : float) : float :=
  match buffered with
  | [] => 0%float
  | (range_start, range_end) :: rest =>
      if PrimFloat.leb range_start currentTime
         && PrimFloat.leb currentTime range_end
      then (range_end - currentTime)%float
      else buffered_ahead rest currentTime
  end.

(** What the buffer monitor stores with [setBufferHealth]; the warning it
    logs while the player is starving and playing is left out. *)
Definition monitorBuffer (prev : BufferHealth) (buffered : TimeRanges)
  (currentTime : float) : BufferHealth :=
  let currentBuffer := buffered_ahead buffered currentTime in
  let isStarving := PrimFloat.ltb currentBuffer 5%float in
  mkBufferHealth currentBuffer (targetBuffer prev) isStarving.

(** The state that quality adaptation reads and writes. *)
Record Control : Type := mkControl {
  qualityLevels : list QualityLevel;
  currentQuality : Z;
  manualQualityOverride : option Z;
  networkCondition : NetworkCondition;
  bufferHealth : BufferHealth;
  shown : Telemetry.PlayerState
}.

(** [qualityLevels[i]] for an integer [i]: [None] is [undefined]. *)
Definition level_at (levels : list QualityLevel) (i : Z) : option QualityLevel :=
  if i <? 0 then None else nth_error levels (Z.to_nat i).

(** The memo [optimalQuality]. *)
Definition optimalQuality (c : Control) : result Z :=
  if (List.length (qualityLevels c) =? 0)%nat then Ok 0
  else match manualQualityOverride c with
       | Some override => Ok override
       | None =>
           selectOptimalQuality (qualityLevels c) (networkCondition c)
             (bufferHealth c) (currentQuality c)
       end.

Section Effects.

(** The text of the "Quality switch" log line, from the old and the new
    level: it prints a float with [toFixed] and is left as a parameter. *)
Variable switch_message : option QualityLevel -> option QualityLevel -> string.

(** The effect that handles quality changes: one run of it, with the memo
    it depends on. *)
Definition onQualityChange (env : Telemetry.Env) (c : Control)
  : result Control :=
  (let? optimal := optimalQuality c in
   if negb (optimal =? currentQuality c)
      && (0 <? List.length (qualityLevels c))%nat
   then
     let oldQuality := level_at (qualityLevels c) (currentQuality c) in
     let newQuality := level_at (qualityLevels c) optimal in
     Ok (mkControl (qualityLevels c) optimal (manualQualityOverride c)
           (networkCondition c) (bufferHealth c)
           (Telemetry.logEvent env (switch_message oldQuality newQuality) info
              (Telemetry.setMetrics
                 (fun prev =>
                    Telemetry.mkPlayerMetrics optimal
                      (Telemetry.avgBandwidth prev)
                      (Telemetry.droppedFrames prev)
                      (Telemetry.switchCount prev + 1)
                      (Telemetry.bufferEvents prev))
                 (shown c))))
   else Ok c)%result.

(** Several runs of the effect, one for each reading of the clock. *)
Fixpoint cycles (envs : list Telemetry.Env) (c : Control) : result Control :=
  match envs with
  | [] => Ok c
  | env :: rest =>
      (let? c' := onQualityChange env c in cycles rest c')%result
  end.

End Effects.

(** [handleQualityOverride]; [None] is [null]. *)
Definition handleQualityOverride (env : Telemetry.Env)
  (qualityIndex : option Z) (c : Control) : Control :=
  let message :=
    match qualityIndex with
    | Some i =>
        match level_at (qualityLevels c) i with
        | Some q => ("Manual quality override: " ++ resolution q)%string
        | None => "Automatic quality selection enabled"%string
        end
    | None => "Automatic quality selection enabled"%string
    end in
  mkControl (qualityLevels c) (currentQuality c) qualityIndex
    (networkCondition c) (bufferHealth c)
    (Telemetry.logEvent env message info (shown c)).

(** The override, when there is one, is an index of the ladder. *)
Definition override_in_range (c : Control) : Prop :=
  match manualQualityOverride c with
  | Some override =>
      0 <= override <= Z.of_nat (List.length (qualityLevels c)) - 1
  | None => True
  end.

(** The play position is outside a range. *)
Definition outside (currentTime : float) (range : float * float) : bool :=
  negb (PrimFloat.leb (fst range) currentTime
        && PrimFloat.leb currentTime (snd range)).

(** A state of the player on the test ladder. *)
Definition test_control (current : Z) (network : NetworkCondition)
  (buffer : BufferHealth) : Control :=
  mkControl mockQualities current None network buffer Telemetry.initial.

Definition test_message (oldQuality newQuality : option QualityLevel)
  : string := "Quality switch".

Definition test_env : Telemetry.Env :=
  Telemetry.mkEnv "2024-01-01T00:00:00.000Z"
    "123e4567-e89b-12d3-a456-426614174000"
    "123e4567-e89b-12d3-a456-426614174001".

End Player.

(** * Properties *)

(** ** Binary64 arithmetic on numbers that are not negative *)

Module Binary64Facts.
Import Binary64.

Lemma iter_pos_invariant {A : Type} (P : A -> Prop) (f : A -> A) :
  (forall x, P x -> P (f x)) -> forall n x, P x -> P (iter_pos f n x).
Proof.
  intros Hf. induction n as [n IH|n IH|]; intros x Hx; cbn [iter_pos]; auto.
Qed.

Lemma shr_1_nonneg (mrs : shr_record) : 0 <= shr_m mrs -> 0 <= shr_m (shr_1 mrs).
Proof.
  destruct mrs as [m r s]. cbn [shr_m]. intros H.
  destruct m as [|[p|p|]|p]; cbn; lia.
Qed.

Lemma shr_nonneg (mrs : shr_record) (e n : Z) :
  0 <= shr_m mrs -> 0 <= shr_m (fst (shr mrs e n)).
Proof.
  intros H. destruct n as [|k|k]; cbn [shr fst]; trivial.
  now apply iter_pos_invariant; [apply shr_1_nonneg|].
Qed.

Lemma shr_record_of_loc_m (m : Z) (l : location) :
  shr_m (shr_record_of_loc m l) = m.
Proof. destruct l as [|[]]; reflexivity. Qed.

Lemma round_nearest_even_nonneg (m : Z) (l : location) :
  0 <= m -> 0 <= round_nearest_even m l.
Proof. destruct l as [|[]]; cbn; try destruct (Z.even m); lia. Qed.

Lemma round_nearest_even_pos (m : Z) (l : location) :
  0 < m -> 0 < round_nearest_even m l.
Proof. destruct l as [|[]]; cbn; try destruct (Z.even m); lia. Qed.

Lemma binary_round_aux_signed (sx : bool) (m e : Z) (l : location) :
  0 <= m -> signed sx (binary_round_aux prec emax sx m e l) = true.
Proof.
  intros Hm. unfold binary_round_aux, shr_fexp.
  destruct (shr (shr_record_of_loc m l) e _) as [mrs' e'] eqn:E1.
  assert (H1 : 0 <= shr_m mrs').
  { change mrs' with (fst (mrs', e')). rewrite <- E1. apply shr_nonneg.
    now rewrite shr_record_of_loc_m. }
  destruct (shr (shr_record_of_loc _ loc_Exact) e' _) as [mrs'' e''] eqn:E2.
  assert (H2 : 0 <= shr_m mrs'').
  { change mrs'' with (fst (mrs'', e'')). rewrite <- E2. apply shr_nonneg.
    rewrite shr_record_of_loc_m. now apply round_nearest_even_nonneg. }
  destruct (shr_m mrs'') as [|p|p]; [| |lia].
  - cbn. now destruct sx.
  - destruct (e'' <=? emax - prec); cbn; now destruct sx.
Qed.

Lemma binary_round_signed (sx : bool) (m : positive) (e : Z) :
  signed sx (binary_round prec emax sx m e) = true.
Proof.
  unfold binary_round. destruct (shl_align m e _) as [mz ez].
  now apply binary_round_aux_signed.
Qed.

Lemma binary_normalize_nonneg (m e : Z) :
  0 <= m -> nonneg (binary_normalize prec emax m e false) = true.
Proof.
  intros Hm. destruct m as [|p|p]; [reflexivity| |lia]. cbn [binary_normalize].
  assert (H := binary_round_signed false p e).
  destruct (binary_round prec emax false p e) as [[]|[]| |[] ? ?]; cbn in *;
    congruence.
Qed.

Lemma SFldexp_nonneg (x : spec_float) (e : Z) :
  nonneg x = true -> nonneg (SFldexp prec emax x e) = true.
Proof.
  destruct x as [[]|[]| |[] m ex]; cbn [nonneg SFldexp]; try congruence.
  intros _. assert (H := binary_round_signed false m (ex + e)).
  destruct (binary_round prec emax false m (ex + e)) as [[]|[]| |[] ? ?];
    cbn in *; congruence.
Qed.

(** The number [num z] of a non-negative integer is +0, positive or
    +Infinity. *)
Lemma SF2Prim_nonneg (x : spec_float) :
  nonneg x = true -> nonneg (Prim2SF (SF2Prim x)) = true.
Proof.
  destruct x as [[]|[]| |[] m e]; cbn [nonneg]; try congruence; intros _.
  - reflexivity.
  - reflexivity.
  - cbn [SF2Prim]. rewrite Z_ldexp_spec, of_uint63_spec.
    apply SFldexp_nonneg, binary_normalize_nonneg.
    apply Uint63.to_Z_bounded.
Qed.


(** *** Digits and shifts *)

Lemma digits2_bounds (m : positive) :
  2 ^ (Zpos (digits2_pos m) - 1) <= Zpos m < 2 ^ Zpos (digits2_pos m).
Proof.
  induction m as [m IH|m IH|]; cbn [digits2_pos].
  - rewrite Pos2Z.inj_succ.
    replace (Z.succ (Zpos (digits2_pos m)) - 1)
      with (Z.succ (Zpos (digits2_pos m) - 1)) by lia.
    rewrite !Z.pow_succ_r by lia. lia.
  - rewrite Pos2Z.inj_succ.
    replace (Z.succ (Zpos (digits2_pos m)) - 1)
      with (Z.succ (Zpos (digits2_pos m) - 1)) by lia.
    rewrite !Z.pow_succ_r by lia. lia.
  - cbn. lia.
Qed.

Lemma shr_1_pos (m : positive) (r s : bool) :
  1 < Zpos (digits2_pos m) ->
  exists m' r' s',
    shr_1 (Build_shr_record (Zpos m) r s) = Build_shr_record (Zpos m') r' s'
    /\ Zpos (digits2_pos m') = Zpos (digits2_pos m) - 1.
Proof.
  intros H. destruct m as [p|p|]; cbn [digits2_pos] in *.
  - exists p. do 2 eexists. split; [reflexivity|lia].
  - exists p. do 2 eexists. split; [reflexivity|lia].
  - lia.
Qed.

(** Shifting out fewer bits than the mantissa has leaves a positive
    mantissa. *)
Lemma iter_shr_1_pos (k : positive) :
  forall (m : positive) (r s : bool),
    Zpos k < Zpos (digits2_pos m) ->
    exists m' r' s',
      iter_pos shr_1 k (Build_shr_record (Zpos m) r s)
      = Build_shr_record (Zpos m') r' s'
      /\ Zpos (digits2_pos m') = Zpos (digits2_pos m) - Zpos k.
Proof.
  induction k as [k IH|k IH|]; intros m r s Hk; cbn [iter_pos].
  - destruct (shr_1_pos m r s) as (m0 & r0 & s0 & -> & D0); [lia|].
    destruct (IH m0 r0 s0) as (m1 & r1 & s1 & -> & D1); [lia|].
    destruct (IH m1 r1 s1) as (m2 & r2 & s2 & -> & D2); [lia|].
    exists m2, r2, s2. split; [reflexivity|lia].
  - destruct (IH m r s) as (m1 & r1 & s1 & -> & D1); [lia|].
    destruct (IH m1 r1 s1) as (m2 & r2 & s2 & -> & D2); [lia|].
    exists m2, r2, s2. split; [reflexivity|lia].
  - destruct (shr_1_pos m r s) as (m0 & r0 & s0 & -> & D0); [lia|].
    exists m0, r0, s0. split; [reflexivity|lia].
Qed.

Lemma emin_value : SpecFloat.emin prec emax = -1074.
Proof. reflexivity. Qed.

Lemma fexp_value (e : Z) : fexp prec emax e = Z.max (e - 53) (-1074).
Proof. reflexivity. Qed.

(** At an exponent that is not below the least one, the shift of
    [shr_fexp] leaves a positive mantissa and does not lower the
    exponent. *)
Lemma shr_fexp_pos (m : positive) (e : Z) :
  -1074 <= e ->
  exists m' r' s' e',
    shr_fexp prec emax (Zpos m) e loc_Exact
    = (Build_shr_record (Zpos m') r' s', e')
    /\ -1074 <= e'.
Proof.
  intros He. unfold shr_fexp. rewrite fexp_value. cbn [Zdigits2 shr_record_of_loc].
  destruct (Z.max (Zpos (digits2_pos m) + e - 53) (-1074) - e) as [|k|k] eqn:En;
    cbn [shr].
  - exists m. do 3 eexists. split; [reflexivity|exact He].
  - destruct (iter_shr_1_pos k m false false) as (m' & r' & s' & -> & _); [lia|].
    exists m', r', s'. eexists. split; [reflexivity|lia].
  - exists m. do 3 eexists. split; [reflexivity|exact He].
Qed.

Lemma binary_round_aux_positive (m : positive) (e : Z) :
  -1074 <= e ->
  positive_float (binary_round_aux prec emax false (Zpos m) e loc_Exact) = true.
Proof.
  intros He. unfold binary_round_aux.
  destruct (shr_fexp_pos m e He) as (m1 & r1 & s1 & e1 & -> & He1).
  cbn [shr_m].
  assert (Hpos : 0 < round_nearest_even (Zpos m1)
                       (loc_of_shr_record (Build_shr_record (Zpos m1) r1 s1)))
    by (apply round_nearest_even_pos; lia).
  destruct (round_nearest_even _ _) as [|m2|m2]; try lia.
  destruct (shr_fexp_pos m2 e1 He1) as (m3 & r3 & s3 & e3 & -> & _).
  cbn [shr_m]. now destruct (e3 <=? emax - prec).
Qed.

Lemma shl_align_exponent (m : positive) (e e' : Z) :
  snd (shl_align m e e') = Z.min e e'.
Proof.
  unfold shl_align. destruct (e' - e) as [|d|d] eqn:E; cbn [snd]; lia.
Qed.

Lemma binary_round_positive (m : positive) (e : Z) :
  -1074 <= e ->
  positive_float (binary_round prec emax false m e) = true.
Proof.
  intros He. unfold binary_round.
  assert (Hs := shl_align_exponent m e (fexp prec emax (Zpos (digits2_pos m) + e))).
  destruct (shl_align m e _) as [mz ez]. cbn [snd] in Hs.
  apply binary_round_aux_positive. rewrite fexp_value in Hs. lia.
Qed.

Lemma shl_align_value (m : positive) (e e' : Z) :
  e' <= e -> Zpos (fst (shl_align m e e')) = Zpos m * 2 ^ (e - e').
Proof.
  intros H. unfold shl_align. destruct (e' - e) as [|d|d] eqn:E; cbn [fst].
  - replace (e - e') with 0 by lia. cbn. lia.
  - lia.
  - fold (shift_pos d m). rewrite shift_pos_correct, Zpower_pos_nat.
    rewrite Zpower_nat_Z, positive_nat_Z.
    replace (e - e') with (Zpos d) by lia. lia.
Qed.

(** *** Canonical numbers *)

Lemma bounded_canonical (m : positive) (e : Z) :
  bounded prec emax m e = true ->
  -1074 <= e /\ Zpos (digits2_pos m) <= 53
  /\ (-1074 < e -> Zpos (digits2_pos m) = 53).
Proof.
  unfold bounded, canonical_mantissa. rewrite fexp_value.
  intros H. apply andb_true_iff in H as [H _]. apply Z.eqb_eq in H. lia.
Qed.

(** On canonical positive numbers the order of the values is the order
    [SFcompare] reads off exponent and mantissa. *)
Lemma aligned_difference (mx my : positive) (ex ey : Z) :
  bounded prec emax mx ex = true ->
  bounded prec emax my ey = true ->
  (Zpos (fst (shl_align mx ex (Z.min ex ey)))
   - Zpos (fst (shl_align my ey (Z.min ex ey))) ?= 0)
  = match ex ?= ey with
    | Lt => Lt
    | Gt => Gt
    | Eq => Pos.compare_cont Eq mx my
    end.
Proof.
  intros Bx By.
  destruct (bounded_canonical mx ex Bx) as (Hex & Hdx & Hnx).
  destruct (bounded_canonical my ey By) as (Hey & Hdy & Hny).
  assert (Bmx := digits2_bounds mx). assert (Bmy := digits2_bounds my).
  rewrite !shl_align_value by lia.
  assert (P53 : forall m, Zpos (digits2_pos m) <= 53 -> Zpos m < 2 ^ 53).
  { intros m Hd. assert (B := digits2_bounds m).
    assert (2 ^ Zpos (digits2_pos m) <= 2 ^ 53) by (apply Z.pow_le_mono_r; lia).
    lia. }
  destruct (Z.compare_spec ex ey) as [Heq|Hlt|Hgt].
  - subst ey. rewrite Z.min_id, Z.sub_diag, Z.pow_0_r, !Z.mul_1_r.
    rewrite Z.compare_sub. replace (Zpos mx - Zpos my - 0) with (Zpos mx - Zpos my) by lia.
    rewrite <- Z.compare_sub. reflexivity.
  - rewrite Z.min_l by lia. rewrite Z.sub_diag, Z.pow_0_r, Z.mul_1_r.
    apply Z.compare_lt_iff.
    assert (Zpos (digits2_pos my) = 53) by lia.
    assert (2 ^ 52 <= Zpos my) by (replace 52 with (Zpos (digits2_pos my) - 1) by lia; lia).
    assert (2 ^ 1 <= 2 ^ (ey - ex)) by (apply Z.pow_le_mono_r; lia).
    assert (Zpos mx < 2 ^ 53) by (apply P53; lia).
    assert (2 ^ 52 * 2 ^ 1 <= Zpos my * 2 ^ (ey - ex))
      by (apply Z.mul_le_mono_nonneg; lia).
    change (2 ^ 52 * 2 ^ 1) with (2 ^ 53) in *. lia.
  - rewrite Z.min_r by lia. rewrite Z.sub_diag, Z.pow_0_r, Z.mul_1_r.
    apply Z.compare_gt_iff.
    assert (Zpos (digits2_pos mx) = 53) by lia.
    assert (2 ^ 52 <= Zpos mx) by (replace 52 with (Zpos (digits2_pos mx) - 1) by lia; lia).
    assert (2 ^ 1 <= 2 ^ (ex - ey)) by (apply Z.pow_le_mono_r; lia).
    assert (Zpos my < 2 ^ 53) by (apply P53; lia).
    assert (2 ^ 52 * 2 ^ 1 <= Zpos mx * 2 ^ (ex - ey))
      by (apply Z.mul_le_mono_nonneg; lia).
    change (2 ^ 52 * 2 ^ 1) with (2 ^ 53) in *. lia.
Qed.

(** *** Subtraction and order *)

Lemma positive_above_zero (r : spec_float) :
  positive_float r = true -> SFltb SFzero r = true.
Proof. destruct r as [[]|[]| |[] m e]; cbn; congruence. Qed.

Lemma negative_not_above_zero (r : spec_float) :
  signed true r = true -> SFltb SFzero r = false.
Proof. destruct r as [[]|[]| |[] m e]; cbn; congruence. Qed.

Lemma SFcompare_finite (mx my : positive) (ex ey : Z) :
  SFcompare (S754_finite false mx ex) (S754_finite false my ey)
  = Some match ex ?= ey with
         | Lt => Lt
         | Gt => Gt
         | Eq => Pos.compare_cont Eq mx my
         end.
Proof. reflexivity. Qed.

Lemma SFsub_finite (mx my : positive) (ex ey : Z) :
  SFsub prec emax (S754_finite false mx ex) (S754_finite false my ey)
  = binary_normalize prec emax
      (Zpos (fst (shl_align mx ex (Z.min ex ey)))
       - Zpos (fst (shl_align my ey (Z.min ex ey)))) (Z.min ex ey) false.
Proof. reflexivity. Qed.

(** The sign of a difference of two canonical numbers that are not
    negative tells their order. *)
Lemma SFsub_order (x y : spec_float) :
  nonneg x = true -> nonneg y = true ->
  valid_binary x = true -> valid_binary y = true ->
  (SFltb SFzero (SFsub prec emax x y) = true ->
     SFleb y x = true /\ SFeqb x y = false)
  /\ (SFltb SFzero (SFsub prec emax x y) = false -> SFleb x y = true).
Proof.
  destruct x as [[]|[]| |[] mx ex], y as [[]|[]| |[] my ey];
    cbn [nonneg]; try congruence; intros _ _ Vx Vy;
    try (cbn; split; intros; try split; congruence).
  unfold valid_binary in Vx, Vy. cbn [SpecFloat.valid_binary] in Vx, Vy.
  assert (Hd := aligned_difference mx my ex ey Vx Vy).
  assert (Hd' := aligned_difference my mx ey ex Vy Vx).
  rewrite (Z.min_comm ey ex) in Hd'.
  rewrite SFsub_finite. unfold SFleb, SFeqb. rewrite !SFcompare_finite.
  rewrite <- Hd, <- Hd'.
  set (D := Zpos (fst (shl_align mx ex (Z.min ex ey)))
            - Zpos (fst (shl_align my ey (Z.min ex ey)))).
  replace (Zpos (fst (shl_align my ey (Z.min ex ey)))
           - Zpos (fst (shl_align mx ex (Z.min ex ey)))) with (- D)
    by (unfold D; lia).
  assert (He : -1074 <= Z.min ex ey).
  { destruct (bounded_canonical mx ex Vx) as (? & _).
    destruct (bounded_canonical my ey Vy) as (? & _). lia. }
  destruct D as [|p|p] eqn:ED.
  - cbn. split; [discriminate|reflexivity].
  - cbn [binary_normalize].
    rewrite (positive_above_zero _ (binary_round_positive p _ He)).
    split; [|discriminate]. intros _. cbn. split; reflexivity.
  - cbn [binary_normalize].
    rewrite (negative_not_above_zero _ (binary_round_signed true p _)).
    split; [discriminate|]. intros _. reflexivity.
Qed.

Lemma SFeqb_tie (x y b : spec_float) :
  nonneg x = true -> nonneg y = true ->
  SFeqb x b = true -> SFeqb y b = true -> SFeqb x y = true.
Proof.
  unfold SFeqb.
  destruct x as [[]|[]| |[] mx ex]; cbn [nonneg]; try congruence;
    destruct y as [[]|[]| |[] my ey]; cbn [nonneg]; try congruence;
    destruct b as [[]|[]| |[] mb eb]; intros _ _; cbn; try congruence.
  change (Pos.compare_cont Eq mx mb) with (Pos.compare mx mb).
  change (Pos.compare_cont Eq my mb) with (Pos.compare my mb).
  change (Pos.compare_cont Eq mx my) with (Pos.compare mx my).
  destruct (Z.compare_spec ex eb), (Z.compare_spec ey eb),
    (Z.compare_spec ex ey); try congruence; try lia;
    destruct (Pos.compare_spec mx mb), (Pos.compare_spec my mb),
      (Pos.compare_spec mx my); try congruence; lia.
Qed.

Lemma SFleb_trans (x y z : spec_float) :
  nonneg x = true -> nonneg y = true -> nonneg z = true ->
  SFleb x y = true -> SFleb y z = true -> SFleb x z = true.
Proof.
  unfold SFleb.
  destruct x as [[]|[]| |[] mx ex]; cbn [nonneg]; try congruence;
    destruct y as [[]|[]| |[] my ey]; cbn [nonneg]; try congruence;
    destruct z as [[]|[]| |[] mz ez]; cbn [nonneg]; try congruence;
    intros _ _ _; cbn; try congruence.
  change (Pos.compare_cont Eq mx my) with (Pos.compare mx my).
  change (Pos.compare_cont Eq my mz) with (Pos.compare my mz).
  change (Pos.compare_cont Eq mx mz) with (Pos.compare mx mz).
  destruct (Z.compare_spec ex ey), (Z.compare_spec ey ez),
    (Z.compare_spec ex ez); try congruence; try lia;
    destruct (Pos.compare_spec mx my), (Pos.compare_spec my mz),
      (Pos.compare_spec mx mz); try congruence; lia.
Qed.

(** *** The same on numbers *)

Lemma num_nonneg (z : Z) : 0 <= z -> nonneg_number (num z).
Proof.
  intros Hz. unfold nonneg_number, num.
  apply SF2Prim_nonneg. now apply binary_normalize_nonneg.
Qed.

Lemma zero_spec : Prim2SF 0%float = SFzero.
Proof. reflexivity. Qed.

Lemma difference_above_zero (x y : float) :
  nonneg_number x -> nonneg_number y ->
  PrimFloat.ltb 0 (x - y) = true ->
  PrimFloat.leb y x = true /\ PrimFloat.eqb x y = false.
Proof.
  intros Nx Ny. rewrite ltb_spec, leb_spec, FloatAxioms.eqb_spec, sub_spec, zero_spec.
  apply SFsub_order; trivial; apply Prim2SF_valid.
Qed.

Lemma difference_not_above_zero (x y : float) :
  nonneg_number x -> nonneg_number y ->
  PrimFloat.ltb 0 (x - y) = false ->
  PrimFloat.leb x y = true.
Proof.
  intros Nx Ny. rewrite ltb_spec, leb_spec, sub_spec, zero_spec.
  apply SFsub_order; trivial; apply Prim2SF_valid.
Qed.

Lemma equal_numbers_tie (x y b : float) :
  nonneg_number x -> nonneg_number y ->
  PrimFloat.eqb x b = true -> PrimFloat.eqb y b = true ->
  PrimFloat.ltb 0 (x - y) = false.
Proof.
  intros Nx Ny Hx Hy. rewrite FloatAxioms.eqb_spec in Hx, Hy.
  assert (Hxy := SFeqb_tie _ _ _ Nx Ny Hx Hy).
  destruct (PrimFloat.ltb 0 (x - y)) eqn:E; [|reflexivity].
  destruct (difference_above_zero x y Nx Ny E) as [_ Hne].
  rewrite FloatAxioms.eqb_spec in Hne. congruence.
Qed.

Lemma leb_trans (x y z : float) :
  nonneg_number x -> nonneg_number y -> nonneg_number z ->
  PrimFloat.leb x y = true -> PrimFloat.leb y z = true ->
  PrimFloat.leb x z = true.
Proof. rewrite !leb_spec. apply SFleb_trans. Qed.

Lemma zero_leb (x : float) : nonneg_number x -> PrimFloat.leb 0 x = true.
Proof.
  unfold nonneg_number. rewrite leb_spec, zero_spec.
  destruct (Prim2SF x) as [[]|[]| |[] m e]; cbn; congruence.
Qed.

End Binary64Facts.


Module SelectorFacts.
Import Selector.

(** Reads inside the array succeed. *)
Lemma at_index_in_range (qualityLevels : list QualityLevel) (i : nat) :
  (i < List.length qualityLevels)%nat ->
  exists q, at_index qualityLevels i = Ok q.
Proof.
  intros Hi. unfold at_index.
  destruct (nth_error qualityLevels i) as [q|] eqn:E.
  - now exists q.
  - apply nth_error_None in E. lia.
Qed.

(** The scan stays inside the array and returns one of the indices it
    visited, or the fallback 0. *)
Lemma scan_returns_visited (qualityLevels : list QualityLevel)
  (available ratio : float) (safe : Z) (n : nat) :
  (n <= List.length qualityLevels)%nat ->
  exists r, scan qualityLevels available ratio safe n = Ok r
            /\ 0 <= r /\ r <= Z.max 0 (Z.of_nat n - 1).
Proof.
  induction n as [|i IH]; intros Hn.
  - exists 0. cbn. repeat split; lia.
  - destruct (at_index_in_range qualityLevels i) as [q Hq]; [lia|].
    cbn [scan]. rewrite Hq. cbn [rbind].
    destruct IH as (r & Hr & Hr0 & Hr1); [lia|].
    repeat match goal with
           | |- context [if ?b then _ else _] => destruct b
           end;
      first [ exists (Z.of_nat i); repeat split; lia
            | exists r; repeat split; [exact Hr | lia | lia] ].
Qed.

Lemma safe_in_range (qualityLevels : list QualityLevel) (currentQuality : Z) :
  qualityLevels <> [] ->
  0 <= safeCurrentQuality qualityLevels currentQuality
       <= Z.of_nat (List.length qualityLevels) - 1.
Proof.
  intros Hne. unfold safeCurrentQuality.
  destruct qualityLevels as [|q l]; [congruence|]. cbn [List.length]. lia.
Qed.

Lemma safe_idempotent (qualityLevels : list QualityLevel) (currentQuality : Z) :
  safeCurrentQuality qualityLevels
    (safeCurrentQuality qualityLevels currentQuality)
  = safeCurrentQuality qualityLevels currentQuality.
Proof.
  unfold safeCurrentQuality. destruct qualityLevels as [|q l]; cbn [List.length]; lia.
Qed.

Lemma nonempty_length (qualityLevels : list QualityLevel) :
  qualityLevels <> [] -> (List.length qualityLevels =? 0)%nat = false.
Proof.
  destruct qualityLevels; [congruence|reflexivity].
Qed.

(** The selector never throws. *)
Lemma select_returns (qualityLevels : list QualityLevel)
  (networkCondition : NetworkCondition) (bufferHealth : BufferHealth)
  (currentQuality : Z) :
  exists r,
    selectOptimalQuality qualityLevels networkCondition bufferHealth
      currentQuality = Ok r
    /\ 0 <= r /\ r <= Z.max 0 (Z.of_nat (List.length qualityLevels) - 1).
Proof.
  unfold selectOptimalQuality.
  destruct qualityLevels as [|q0 l] eqn:El.
  - exists 0. cbn. repeat split; lia.
  - rewrite <- El. rewrite nonempty_length by (subst; discriminate).
    assert (Hs := safe_in_range qualityLevels currentQuality).
    cbv zeta.
    destruct (isStarving bufferHealth && _).
    + eexists. split; [reflexivity|]. subst qualityLevels.
      specialize (Hs ltac:(discriminate)). lia.
    + apply scan_returns_visited. lia.
Qed.

(** C1: on a ladder with bandwidths [800000, 1400000, 2800000], with
    4 Mbit/s of bandwidth at 1% loss, 40 s buffered of a 30 s target and
    current quality 0, the selector returns 2: the available bandwidth
    exceeds 1.4 times the top tier's and the buffer ratio exceeds 1.2, so
    the upgrade branch fires at the first index scanned. *)
Theorem select_good_network_picks_top (qualityLevels : list QualityLevel) :
  map bandwidth qualityLevels = map num [800000; 1400000; 2800000] ->
  selectOptimalQuality qualityLevels goodNetwork healthyBuffer 0 = Ok 2
  /\ gt (availableBandwidth goodNetwork) (num 2800000 * 1.4)%float = true
  /\ gt (bufferRatio healthyBuffer) 1.2%float = true
  /\ scan qualityLevels (availableBandwidth goodNetwork)
       (bufferRatio healthyBuffer) 0 3 = Ok 2.
Proof.
  intros Hbw.
  destruct qualityLevels as [|[i0 b0 r0 u0 s0] [|[i1 b1 r1 u1 s1]
    [|[i2 b2 r2 u2 s2] [|? ?]]]]; try discriminate.
  cbn [map] in Hbw. injection Hbw as -> -> ->.
  repeat split; vm_compute; reflexivity.
Qed.

Lemma select_good_network_picks_top_witness :
  map bandwidth mockQualities = map num [800000; 1400000; 2800000]
  /\ selectOptimalQuality mockQualities goodNetwork healthyBuffer 0 = Ok 2.
Proof.
  split; [vm_compute; reflexivity|].
  apply (select_good_network_picks_top mockQualities). vm_compute. reflexivity.
Defined.

(** C2: on a non-empty ladder with a starving buffer, when the clamped
    current index is above 0 the selector returns that index minus one,
    whatever the network says: one step down, never more.  On the test
    ladder with 500 kbit/s at 10% loss, 2 s buffered and current quality 2
    it returns 1. *)
Theorem starving_steps_down_once (qualityLevels : list QualityLevel)
  (networkCondition : NetworkCondition) (bufferHealth : BufferHealth)
  (currentQuality : Z) :
  qualityLevels <> [] ->
  isStarving bufferHealth = true ->
  0 < safeCurrentQuality qualityLevels currentQuality ->
  selectOptimalQuality qualityLevels networkCondition bufferHealth
    currentQuality
  = Ok (safeCurrentQuality qualityLevels currentQuality - 1)
  /\ selectOptimalQuality mockQualities poorNetwork starvingBuffer 2 = Ok 1.
Proof.
  intros Hne Hstarving Hpos. split; [|vm_compute; reflexivity].
  unfold selectOptimalQuality.
  rewrite nonempty_length by assumption. cbv zeta.
  rewrite Hstarving.
  replace (safeCurrentQuality qualityLevels currentQuality >? 0) with true
    by (symmetry; apply Z.gtb_lt; lia).
  cbn [andb]. f_equal. lia.
Qed.

Lemma starving_steps_down_once_witness :
  mockQualities <> []
  /\ isStarving starvingBuffer = true
  /\ 0 < safeCurrentQuality mockQualities 2
  /\ selectOptimalQuality mockQualities poorNetwork starvingBuffer 2 = Ok 1.
Proof.
  assert (Hne : mockQualities <> []) by discriminate.
  assert (Hpos : 0 < safeCurrentQuality mockQualities 2) by reflexivity.
  split; [exact Hne|]. split; [reflexivity|]. split; [exact Hpos|].
  exact (proj1 (starving_steps_down_once mockQualities poorNetwork
                  starvingBuffer 2 Hne eq_refl Hpos)).
Defined.

(** The current revision ([src/App.tsx]) does what C3 says: the selector
    returns 0 on an empty ladder; on any other it works
    on the current quality clamped into [0, length - 1], so that the
    result is the same as for the clamped value, and no read of the ladder
    is out of bounds: the selector never throws.  With current quality 10
    on the three-level ladder it behaves as with 2. *)
Theorem current_quality_is_clamped (qualityLevels : list QualityLevel)
  (networkCondition : NetworkCondition) (bufferHealth : BufferHealth)
  (currentQuality : Z) :
  selectOptimalQuality [] networkCondition bufferHealth currentQuality = Ok 0
  /\ (forall q, 0 <= safeCurrentQuality (q :: qualityLevels) currentQuality
                  <= Z.of_nat (List.length (q :: qualityLevels)) - 1)
  /\ selectOptimalQuality qualityLevels networkCondition bufferHealth
       currentQuality
     = selectOptimalQuality qualityLevels networkCondition bufferHealth
         (safeCurrentQuality qualityLevels currentQuality)
  /\ (exists r, selectOptimalQuality qualityLevels networkCondition
                  bufferHealth currentQuality = Ok r)
  /\ safeCurrentQuality mockQualities 10 = 2
  /\ selectOptimalQuality mockQualities goodNetwork healthyBuffer 10 = Ok 2.
Proof.
  split; [reflexivity|].
  split; [intros q; apply safe_in_range; discriminate|].
  split.
  { unfold selectOptimalQuality. now rewrite safe_idempotent. }
  split.
  { destruct (select_returns qualityLevels networkCondition bufferHealth
                currentQuality) as (r & Hr & _). now exists r. }
  split; vm_compute; reflexivity.
Qed.

(** The current revision ([src/App.tsx]) does what C5 says: on a non-empty
    ladder the selector returns a valid index of the
    ladder, whatever the network, the buffer and the current quality. *)
Theorem selected_index_is_valid (qualityLevels : list QualityLevel)
  (networkCondition : NetworkCondition) (bufferHealth : BufferHealth)
  (currentQuality : Z) :
  qualityLevels <> [] ->
  exists r,
    selectOptimalQuality qualityLevels networkCondition bufferHealth
      currentQuality = Ok r
    /\ 0 <= r <= Z.of_nat (List.length qualityLevels) - 1
    /\ exists q, nth_error qualityLevels (Z.to_nat r) = Some q.
Proof.
  intros Hne.
  destruct (select_returns qualityLevels networkCondition bufferHealth
              currentQuality) as (r & Hr & Hr0 & Hr1).
  assert (0 < Z.of_nat (List.length qualityLevels)).
  { destruct qualityLevels; [congruence|cbn [List.length]; lia]. }
  exists r. split; [exact Hr|]. split; [lia|].
  destruct (nth_error qualityLevels (Z.to_nat r)) as [q|] eqn:E.
  - now exists q.
  - apply nth_error_None in E. lia.
Qed.

Lemma selected_index_is_valid_witness :
  mockQualities <> []
  /\ exists r,
       selectOptimalQuality mockQualities goodNetwork starvingBuffer 10 = Ok r
       /\ 0 <= r <= 2.
Proof.
  assert (Hne : mockQualities <> []) by discriminate.
  split; [exact Hne|].
  destruct (selected_index_is_valid mockQualities goodNetwork starvingBuffer
              10 Hne) as (r & Hr & Hrange & _).
  exists r. split; [exact Hr|exact Hrange].
Defined.

(** The earlier revision, which does not clamp, answers 9 on the
    three-level ladder when the buffer starves at current quality 10, and 4
    on an empty ladder at current quality 5. *)
Example earlier_selector_leaves_the_ladder :
  EarlierSelector.selectOptimalQuality mockQualities goodNetwork
    starvingBuffer 10 = Ok 9
  /\ selectOptimalQuality mockQualities goodNetwork starvingBuffer 10 = Ok 1
  /\ EarlierSelector.selectOptimalQuality [] goodNetwork starvingBuffer 5 = Ok 4
  /\ selectOptimalQuality [] goodNetwork starvingBuffer 5 = Ok 0.
Proof. repeat split; vm_compute; reflexivity. Qed.

(** C3 fails on the earlier copy of the selector kept in
    [src/unnamed/part_000], which has no clamp and no return for the empty
    ladder: with a starving buffer it returns 4 on the empty ladder at
    current quality 5, where the current revision returns 0, and 9 on the
    three-level ladder at current quality 10, where the clamped value 2
    gives 1, as the current revision does. *)
Theorem earlier_selector_does_not_clamp :
  EarlierSelector.selectOptimalQuality [] goodNetwork starvingBuffer 5 = Ok 4
  /\ selectOptimalQuality [] goodNetwork starvingBuffer 5 = Ok 0
  /\ EarlierSelector.selectOptimalQuality mockQualities goodNetwork
       starvingBuffer 10 = Ok 9
  /\ safeCurrentQuality mockQualities 10 = 2
  /\ EarlierSelector.selectOptimalQuality mockQualities goodNetwork
       starvingBuffer 2 = Ok 1
  /\ selectOptimalQuality mockQualities goodNetwork starvingBuffer 10 = Ok 1.
Proof. repeat split; vm_compute; reflexivity. Qed.

(** C5 fails on the earlier copy of the selector kept in
    [src/unnamed/part_000]: on the three-level ladder, with a starving
    buffer at current quality 10, it returns 9, which is no index of the
    ladder; the current revision returns 1. *)
Theorem earlier_selector_returns_no_index :
  mockQualities <> []
  /\ EarlierSelector.selectOptimalQuality mockQualities goodNetwork
       starvingBuffer 10 = Ok 9
  /\ ~ (0 <= 9 <= Z.of_nat (List.length mockQualities) - 1)
  /\ nth_error mockQualities (Z.to_nat 9) = None
  /\ selectOptimalQuality mockQualities goodNetwork starvingBuffer 10 = Ok 1.
Proof.
  split; [discriminate|]. split; [vm_compute; reflexivity|].
  split; [cbn; lia|]. split; vm_compute; reflexivity.
Qed.

End SelectorFacts.

Module ManifestFacts.
Import Str Manifest.

(** *** Digits *)

Lemma span_digits_digits (s : string) :
  all_digits (fst (span_digits s)) = true.
Proof.
  induction s as [|c t IH]; [reflexivity|]. cbn [span_digits].
  destruct (isDigit c) eqn:Ec; [|reflexivity].
  destruct (span_digits t) as [d r]. cbn in *. now rewrite Ec.
Qed.

Lemma bandwidthMatch_digits (line bw : string) :
  bandwidthMatch line = Some bw -> all_digits bw = true.
Proof.
  unfold bandwidthMatch.
  assert (Hhere : forall s, bandwidthRegex_here s = Some bw ->
                            all_digits bw = true).
  { intros s. unfold bandwidthRegex_here.
    destruct (after "BANDWIDTH=" s) as [r|]; [|discriminate].
    assert (Hd := span_digits_digits r).
    destruct (span_digits r) as [d r']. cbn [fst] in Hd.
    destruct (truthy d); [|discriminate]. now intros [= <-]. }
  induction line as [|c t IH]; cbn [exec].
  - destruct (bandwidthRegex_here "") eqn:E; [|discriminate].
    intros [= <-]. now apply (Hhere ""%string).
  - destruct (bandwidthRegex_here (String c t)) eqn:E.
    + intros [= <-]. now apply (Hhere (String c t)).
    + exact IH.
Qed.

Lemma digits_value_nonneg (s : string) (acc : Z) :
  all_digits s = true -> (0 <= acc)%Z -> (0 <= digits_value acc s)%Z.
Proof.
  revert acc. induction s as [|c t IH]; intros acc Hd Hacc; [exact Hacc|].
  cbn [all_digits] in Hd. apply andb_true_iff in Hd as [Hc Ht].
  cbn [digits_value]. apply IH; [exact Ht|].
  unfold isDigit in Hc. apply andb_true_iff in Hc as [Hlo _].
  apply Nat.leb_le in Hlo. lia.
Qed.

(** What [parseInt] reads off a run of digits is not negative and is not
    [NaN]. *)
Lemma parseInt_nonneg (s : string) :
  all_digits s = true -> Binary64.nonneg_number (parseInt s).
Proof.
  intros Hd. unfold parseInt. apply Binary64Facts.num_nonneg.
  now apply digits_value_nonneg.
Qed.

Lemma parse_entries_nonneg (ls : list string) (l : list QualityLevel) :
  parse_entries ls = Ok l ->
  Forall (fun q => Binary64.nonneg_number (bandwidth q)) l.
Proof.
  revert l. induction ls as [|line rest IH]; intros l; cbn [parse_entries].
  - intros [= <-]. constructor.
  - destruct (startsWith line "#EXT-X-STREAM-INF:"); [|apply IH].
    destruct (bandwidthMatch line) as [bw|] eqn:Ebw; [|apply IH].
    destruct (resolutionMatch line) as [res|]; [|apply IH].
    destruct rest as [|playlistUrl rest']; [apply IH|].
    destruct (parseSegmentPlaylist playlistUrl) as [segs|e]; cbn [rbind];
      [|discriminate].
    destruct (parse_entries (playlistUrl :: rest')) as [more|e]; cbn [rbind];
      [|discriminate].
    intros [= <-]. constructor; [|now apply IH].
    cbn [bandwidth quality_of]. apply parseInt_nonneg.
    now apply bandwidthMatch_digits with line.
Qed.

(** *** Sorting *)

Section SortFacts.

Lemma insert_hd (a x : QualityLevel) (l : list QualityLevel) :
  bandwidth_le a x -> HdRel bandwidth_le a l ->
  HdRel bandwidth_le a (insert by_bandwidth x l).
Proof.
  intros Hax Hal. destruct l as [|y l']; cbn [insert].
  - now constructor.
  - destruct (PrimFloat.ltb 0 (by_bandwidth x y)); constructor; trivial.
    now inversion Hal.
Qed.

Lemma insert_sorted (x : QualityLevel) (l : list QualityLevel) :
  Binary64.nonneg_number (bandwidth x) -> Entries.nonneg_bandwidths l ->
  Sorted bandwidth_le l -> Sorted bandwidth_le (insert by_bandwidth x l).
Proof.
  intros Nx Nl Hs. induction Hs as [|y l' Hs IH Hhd]; cbn [insert].
  - repeat constructor.
  - inversion Nl as [|y' l'' Ny Nl']; subst.
    destruct (PrimFloat.ltb 0 (by_bandwidth x y)) eqn:E.
    + constructor; [now apply IH|]. apply insert_hd; [|exact Hhd].
      now apply (Binary64Facts.difference_above_zero _ _ Nx Ny).
    + constructor; [now constructor|]. constructor.
      now apply (Binary64Facts.difference_not_above_zero _ _ Nx Ny).
Qed.

Lemma insert_perm (x : QualityLevel) (l : list QualityLevel) :
  Permutation (x :: l) (insert by_bandwidth x l).
Proof.
  induction l as [|y l IH]; cbn [insert]; [reflexivity|].
  destruct (PrimFloat.ltb 0 (by_bandwidth x y)); [|reflexivity].
  rewrite perm_swap. now constructor.
Qed.

Lemma sort_perm (l : list QualityLevel) :
  Permutation l (sort by_bandwidth l).
Proof.
  induction l as [|x l IH]; cbn [sort fold_right]; [constructor|].
  fold (sort by_bandwidth l). rewrite <- insert_perm. now constructor.
Qed.

Lemma sort_nonneg (l : list QualityLevel) :
  Entries.nonneg_bandwidths l -> Entries.nonneg_bandwidths (sort by_bandwidth l).
Proof. unfold Entries.nonneg_bandwidths. apply Permutation_Forall, sort_perm. Qed.

Lemma sort_sorted (l : list QualityLevel) :
  Entries.nonneg_bandwidths l -> Sorted bandwidth_le (sort by_bandwidth l).
Proof.
  induction l as [|x l IH]; intros Nl; cbn [sort fold_right]; [constructor|].
  fold (sort by_bandwidth l). inversion Nl as [|x' l' Nx Nl']; subst.
  apply insert_sorted; [exact Nx|now apply sort_nonneg|now apply IH].
Qed.

(** On numbers that are not negative [<=] is transitive, so a list in
    which each level is at most the next is one in which each is at most
    all the later ones. *)
Lemma sorted_nonneg_ascending (l : list QualityLevel) :
  Entries.nonneg_bandwidths l -> Sorted bandwidth_le l -> ascending l.
Proof.
  unfold ascending. induction l as [|a l IH]; intros Nl Hs; [constructor|].
  inversion Nl as [|a' l' Na Nl']; subst.
  inversion Hs as [|a' l' Hs' Hhd]; subst.
  assert (Hl := IH Nl' Hs').
  constructor; [exact Hl|].
  destruct l as [|b l0]; [constructor|].
  inversion Hhd as [|b' l0' Hab]; subst.
  inversion Hl as [|b' l0' _ Hb]; subst.
  inversion Nl' as [|b' l0' Nb Nl0]; subst.
  constructor; [exact Hab|].
  rewrite Forall_forall in Hb, Nl0 |- *. intros c Hc.
  apply (Binary64Facts.leb_trans _ (bandwidth b) _ Na Nb (Nl0 c Hc) Hab).
  now apply Hb.
Qed.

Lemma sort_ascending (l : list QualityLevel) :
  Entries.nonneg_bandwidths l -> ascending (sort by_bandwidth l).
Proof.
  intros Nl. apply sorted_nonneg_ascending;
    [now apply sort_nonneg|now apply sort_sorted].
Qed.

End SortFacts.

(** *** Entries *)

Lemma parse_entries_without_valid (ls : list string) :
  valid_entries ls = [] -> parse_entries ls = Ok [].
Proof.
  induction ls as [|line rest IH]; intros Hv; [reflexivity|].
  cbn [valid_entries] in Hv. cbn [parse_entries].
  unfold is_valid_entry in Hv.
  destruct (startsWith line "#EXT-X-STREAM-INF:"); cbn [andb] in Hv.
  - destruct (bandwidthMatch line) as [bw|]; cbn [has_match andb] in Hv.
    + destruct (resolutionMatch line) as [res|]; cbn [has_match andb] in Hv.
      * destruct rest as [|playlistUrl rest']; [reflexivity|discriminate].
      * now apply IH.
    + now apply IH.
  - now apply IH.
Qed.

(** C4, as the code has it: a manifest without a valid stream-info entry is
    not an error.  [parseHLSManifest] skips the entries that lack
    [BANDWIDTH] or [RESOLUTION] or are the last line, and when none is left
    it returns the empty ladder. *)
Theorem no_valid_entry_gives_empty_ladder (manifestContent : string) :
  valid_entries (non_blank_lines manifestContent) = [] ->
  parseHLSManifest manifestContent = Ok [].
Proof.
  intros Hv. unfold parseHLSManifest.
  now rewrite (parse_entries_without_valid _ Hv).
Qed.

Lemma no_valid_entry_gives_empty_ladder_witness :
  valid_entries (non_blank_lines manifest_without_resolution) = []
  /\ parseHLSManifest manifest_without_resolution = Ok [].
Proof.
  split; [reflexivity|].
  apply (no_valid_entry_gives_empty_ladder manifest_without_resolution).
  reflexivity.
Defined.

(** C4, as the claim has it, fails: the manifest whose only entry lacks
    [RESOLUTION] has no valid entry, and parsing it succeeds with an empty
    ladder instead of failing. *)
Lemma no_valid_entry_is_not_an_error :
  ~ (valid_entries (non_blank_lines manifest_without_resolution) = [] ->
     exists e, parseHLSManifest manifest_without_resolution = Throw e).
Proof.
  intros H. destruct (H eq_refl) as [e He]. vm_compute in He. discriminate.
Qed.

(** C8: the levels that [parseHLSManifest] returns are in ascending order
    of bandwidth. *)
Theorem parsed_ladder_is_ascending (manifestContent : string)
  (qualityLevels : list QualityLevel) :
  parseHLSManifest manifestContent = Ok qualityLevels ->
  ascending qualityLevels.
Proof.
  unfold parseHLSManifest. intros H.
  destruct (parse_entries (non_blank_lines manifestContent)) as [l|e] eqn:E;
    cbn [rbind] in H; [|discriminate].
  injection H as <-. apply sort_ascending.
  now apply parse_entries_nonneg with (non_blank_lines manifestContent).
Qed.

Lemma parsed_ladder_is_ascending_witness :
  parseHLSManifest MOCK_HLS_MANIFEST = Ok mock_ladder
  /\ ascending mock_ladder.
Proof.
  assert (H : parseHLSManifest MOCK_HLS_MANIFEST = Ok mock_ladder)
    by (vm_compute; reflexivity).
  split; [exact H|].
  exact (parsed_ladder_is_ascending MOCK_HLS_MANIFEST mock_ladder H).
Defined.

(** *** Ids *)

(** The id tells the bandwidth text and the resolution apart: the text is
    all digits, so the first underscore after the prefix ends it. *)
Lemma digits_then_underscore (bw bw' res res' : string) :
  all_digits bw = true -> all_digits bw' = true ->
  (bw ++ "_" ++ res = bw' ++ "_" ++ res')%string ->
  bw = bw' /\ res = res'.
Proof.
  revert bw'. induction bw as [|c t IH]; intros [|c' t'] Hd Hd' Heq;
    cbn in Heq, Hd, Hd'.
  - injection Heq as ->. now split.
  - injection Heq as <- _. discriminate.
  - injection Heq as -> _. discriminate.
  - injection Heq as -> Heq.
    apply andb_true_iff in Hd as [_ Hd]. apply andb_true_iff in Hd' as [_ Hd'].
    destruct (IH t' Hd Hd' Heq) as [-> ->]. now split.
Qed.

(** A level made by the parser. *)
Lemma quality_id_injective (bw bw' res res' u u' : string)
  (segs segs' : list string) :
  all_digits bw = true -> all_digits bw' = true ->
  id (quality_of bw res u segs) = id (quality_of bw' res' u' segs') ->
  bw = bw' /\ res = res'.
Proof.
  intros Hd Hd' Heq. cbn [id quality_of] in Heq.
  apply digits_then_underscore; trivial.
  cbn in Heq. now injection Heq.
Qed.

Lemma parse_entries_made (ls : list string) (l : list QualityLevel) :
  parse_entries ls = Ok l ->
  Forall (fun q => exists bw, all_digits bw = true
                     /\ q = quality_of bw (resolution q) (url q) (segments q)) l.
Proof.
  revert l. induction ls as [|line rest IH]; intros l; cbn [parse_entries].
  - intros [= <-]. constructor.
  - destruct (startsWith line "#EXT-X-STREAM-INF:"); [|apply IH].
    destruct (bandwidthMatch line) as [bw|] eqn:Ebw; [|apply IH].
    destruct (resolutionMatch line) as [res|]; [|apply IH].
    destruct rest as [|playlistUrl rest']; [apply IH|].
    destruct (parseSegmentPlaylist playlistUrl) as [segs|e]; cbn [rbind];
      [|discriminate].
    destruct (parse_entries (playlistUrl :: rest')) as [more|e]; cbn [rbind];
      [|discriminate].
    intros [= <-]. constructor; [|now apply IH].
    exists bw. split; [now apply bandwidthMatch_digits with line|reflexivity].
Qed.

(** The ids of a parsed ladder are a function of the bandwidth text and the
    resolution, and two levels share an id only when they share both. *)
Lemma same_id_same_pair (manifestContent : string)
  (qualityLevels : list QualityLevel) (a b : QualityLevel) :
  parseHLSManifest manifestContent = Ok qualityLevels ->
  In a qualityLevels -> In b qualityLevels ->
  id a = id b ->
  resolution a = resolution b /\ bandwidth a = bandwidth b.
Proof.
  unfold parseHLSManifest. intros H Ha Hb Hid.
  destruct (parse_entries (non_blank_lines manifestContent)) as [l|e] eqn:E;
    cbn [rbind] in H; [|discriminate].
  injection H as <-.
  assert (Hmade := parse_entries_made _ _ E).
  rewrite Forall_forall in Hmade.
  assert (Hin : forall q, In q (sort by_bandwidth l) -> In q l).
  { intros q. apply Permutation_in. symmetry. apply sort_perm. }
  destruct (Hmade a (Hin a Ha)) as (bwa & Hda & Ea).
  destruct (Hmade b (Hin b Hb)) as (bwb & Hdb & Eb).
  rewrite Ea, Eb in Hid.
  destruct (quality_id_injective _ _ _ _ _ _ _ _ Hda Hdb Hid) as [Hbw Hres].
  split; [exact Hres|]. rewrite Ea, Eb. cbn [bandwidth quality_of].
  now rewrite Hbw.
Qed.

(** C9 fails on the code: the manifest that lists one bandwidth and
    resolution twice parses into two levels with the same id. *)
Theorem backup_rendition_repeats_an_id :
  exists a b,
    parseHLSManifest manifest_with_backup = Ok [a; b]
    /\ url a = "stream_360p.m3u8"%string
    /\ url b = "stream_480p.m3u8"%string
    /\ id a = "quality_800000_640x360"%string
    /\ id b = "quality_800000_640x360"%string
    /\ ~ NoDup (map id [a; b]).
Proof.
  do 2 eexists. split; [vm_compute; reflexivity|].
  repeat (split; [reflexivity|]).
  intros H. inversion H as [|x l Hin _]; subst. apply Hin. now left.
Qed.

End ManifestFacts.

Module LoaderFacts.
Import Loader.

#[local] Open Scope nat_scope.

Section Run.

Variable random_values : nat -> float.
Variable segmentUrl : string.
Variable networkCondition : NetworkCondition.

(** What one pass through the [try] block does. *)
Lemma try_body_run (w : World) :
  try_body random_values segmentUrl networkCondition w
  = ( (if PrimFloat.ltb (random_values (S (draws w))) 0.05%float
       then Throw (Error (network_error segmentUrl))
       else Ok (Some (loaded segmentUrl))),
      mkWorld (S (S (draws w)))
        (trace w ++ [NetworkDelay
           (latency networkCondition + random_values (draws w) * 100)%float]) ).
Proof.
  unfold try_body, bind, Math_random, emit, throw, ret. cbn.
  now destruct (PrimFloat.ltb (random_values (S (draws w))) 0.05%float).
Qed.

Lemma attempts_made_app (t t' : list Event) :
  attempts_made (t ++ t') = attempts_made t + attempts_made t'.
Proof. unfold attempts_made. now rewrite filter_app, length_app. Qed.

Lemma backoffs_app (t t' : list Event) :
  backoffs (t ++ t') = (backoffs t ++ backoffs t')%list.
Proof.
  induction t as [|e t IH]; [reflexivity|].
  destruct e; cbn; now rewrite IH.
Qed.

Lemma total_app (l l' : list Z) : total (l ++ l') = (total l + total l')%Z.
Proof.
  unfold total. induction l as [|x l IH]; cbn [app fold_right]; [lia|].
  rewrite IH. lia.
Qed.

Lemma failed_attempts_step (r attempt d : nat) :
  failed_attempts random_values segmentUrl networkCondition
    (S (S r)) attempt d
  = ([NetworkDelay (latency networkCondition + random_values d * 100)%float;
      Warn ("Segment load attempt " ++ show (attempt + 1) ++ " failed: "
            ++ network_error segmentUrl ++ ". Retrying...");
      Backoff (2 ^ Z.of_nat attempt * 1000)%Z]
     ++ failed_attempts random_values segmentUrl networkCondition
          (S r) (S attempt) (S (S d)))%list.
Proof. reflexivity. Qed.

Lemma failed_attempts_count (remaining attempt d : nat) :
  attempts_made
    (failed_attempts random_values segmentUrl networkCondition
       remaining attempt d) = remaining.
Proof.
  revert attempt d. induction remaining as [|r IH]; intros attempt d;
    [reflexivity|].
  destruct r as [|r']; [reflexivity|].
  rewrite failed_attempts_step.
  rewrite attempts_made_app, IH. reflexivity.
Qed.

Lemma failed_attempts_backoffs (remaining attempt d : nat) :
  backoffs
    (failed_attempts random_values segmentUrl networkCondition
       remaining attempt d)
  = map (fun i => (2 ^ Z.of_nat i * 1000)%Z) (seq attempt (remaining - 1)).
Proof.
  revert attempt d. induction remaining as [|r IH]; intros attempt d;
    [reflexivity|].
  destruct r as [|r']; [reflexivity|].
  rewrite failed_attempts_step, backoffs_app, IH.
  replace (S (S r') - 1) with (S (S r' - 1)) by lia. reflexivity.
Qed.

Lemma total_backoffs (attempt n : nat) :
  total (map (fun i => (2 ^ Z.of_nat i * 1000)%Z) (seq attempt n))
  = (1000 * (2 ^ Z.of_nat (attempt + n) - 2 ^ Z.of_nat attempt))%Z.
Proof.
  revert attempt. induction n as [|n IH]; intros attempt.
  - rewrite Nat.add_0_r. unfold total. cbn [seq map fold_right]. lia.
  - change (total (map (fun i => (2 ^ Z.of_nat i * 1000)%Z)
                     (seq attempt (S n))))
      with (2 ^ Z.of_nat attempt * 1000
            + total (map (fun i => (2 ^ Z.of_nat i * 1000)%Z)
                       (seq (S attempt) n)))%Z.
    rewrite IH.
    replace (Z.of_nat (S attempt + n)) with (Z.of_nat (attempt + S n)) by lia.
    replace (Z.of_nat (S attempt)) with (Z.of_nat attempt + 1)%Z by lia.
    rewrite Z.pow_add_r by lia. lia.
Qed.

(** The loop when every remaining attempt fails. *)
Lemma retry_loop_all_fail (retries remaining attempt : nat) (w : World) :
  attempt + remaining = retries ->
  1 <= remaining ->
  (forall k, k < remaining -> PrimFloat.ltb (random_values (draws w + 2 * k + 1)) 0.05%float = true) ->
  retry_loop random_values segmentUrl networkCondition retries
    remaining attempt w
  = ( Ok (gave_up segmentUrl retries),
      mkWorld (draws w + 2 * remaining)
        (trace w ++ failed_attempts random_values segmentUrl
                      networkCondition remaining attempt (draws w)) ).
Proof.
  revert attempt w. induction remaining as [|r IH]; intros attempt w Hsum Hpos Hfail;
    [lia|].
  cbn [retry_loop]. unfold bind at 1, try_catch. rewrite try_body_run.
  assert (H0 := Hfail 0 ltac:(lia)).
  replace (draws w + 2 * 0 + 1) with (S (draws w)) in H0 by lia.
  rewrite H0. unfold catch_body. cbn [exn_message].
  destruct (Z.eqb_spec (Z.of_nat attempt) (Z.of_nat retries - 1)) as [Hlast|Hmore].
  - assert (r = 0) by lia. subst r. unfold ret. cbn [failed_attempts].
    do 2 f_equal. lia.
  - destruct r as [|r']; [lia|].
    unfold bind, emit, ret. cbn [draws trace].
    rewrite (IH (S attempt)); cbn [draws trace]; try lia.
    + f_equal. f_equal; [lia|].
      rewrite failed_attempts_step, <- !app_assoc. reflexivity.
    + intros k Hk. specialize (Hfail (S k) ltac:(lia)).
      replace (S (S (draws w)) + 2 * k + 1) with (draws w + 2 * S k + 1) by lia.
      exact Hfail.
Qed.

(** The loop never throws, and with an attempt to make it ends in one of
    two results. *)
Lemma retry_loop_returns (retries remaining attempt : nat) (w : World) :
  attempt + remaining = retries ->
  1 <= remaining ->
  exists r w',
    retry_loop random_values segmentUrl networkCondition retries
      remaining attempt w = (Ok r, w')
    /\ (r = loaded segmentUrl \/ r = gave_up segmentUrl retries).
Proof.
  revert attempt w. induction remaining as [|r IH]; intros attempt w Hsum Hpos;
    [lia|].
  cbn [retry_loop]. unfold bind at 1, try_catch. rewrite try_body_run.
  destruct (PrimFloat.ltb (random_values (S (draws w))) 0.05%float).
  - unfold catch_body. cbn [exn_message].
    destruct (Z.eqb_spec (Z.of_nat attempt) (Z.of_nat retries - 1)) as [Hlast|Hmore].
    + unfold ret. do 2 eexists. split; [reflexivity|]. now right.
    + unfold bind, emit, ret. cbn [draws trace].
      apply IH; lia.
  - unfold ret. do 2 eexists. split; [reflexivity|]. now left.
Qed.

End Run.

(** C6: when every attempt fails, [loadSegment] makes exactly [retries]
    attempts (3 when the argument is left out) and returns the failure
    whose message carries the last attempt's error.  Each failed attempt
    but the last is followed by a backoff of [2^attempt * 1000] ms, so the
    backoffs are those of attempts [0 .. retries - 2] and add up to
    [1000 * (2^(retries - 1) - 1)] ms. *)
Theorem all_attempts_fail (random_values : nat -> float) (segmentUrl : string)
  (networkCondition : NetworkCondition) (retries : option nat) (w : World) :
  1 <= retries_or_default retries ->
  (forall k, k < retries_or_default retries ->
     PrimFloat.ltb (random_values (draws w + 2 * k + 1)) 0.05%float = true) ->
  exists w',
    loadSegment random_values segmentUrl networkCondition retries w
    = (Ok (gave_up segmentUrl (retries_or_default retries)), w')
    /\ trace w'
       = (trace w ++ failed_attempts random_values segmentUrl networkCondition
                       (retries_or_default retries) 0 (draws w))%list
    /\ attempts_made (trace w')
       = attempts_made (trace w) + retries_or_default retries
    /\ backoffs (trace w')
       = (backoffs (trace w)
          ++ map (fun i => (2 ^ Z.of_nat i * 1000)%Z)
               (seq 0 (retries_or_default retries - 1)))%list
    /\ total (backoffs (trace w'))
       = (total (backoffs (trace w))
          + 1000 * (2 ^ (Z.of_nat (retries_or_default retries) - 1) - 1))%Z
    /\ retries_or_default None = 3.
Proof.
  intros Hpos Hfail. unfold loadSegment. cbv zeta.
  set (n := retries_or_default retries) in *.
  rewrite (retry_loop_all_fail random_values segmentUrl networkCondition
             n n 0 w) by (trivial; lia).
  eexists. split; [reflexivity|]. cbn [trace].
  split; [reflexivity|].
  split; [now rewrite attempts_made_app, failed_attempts_count|].
  split; [now rewrite backoffs_app, failed_attempts_backoffs|].
  split; [|reflexivity].
  rewrite backoffs_app, total_app, failed_attempts_backoffs, total_backoffs.
  replace (Z.of_nat (0 + (n - 1))) with (Z.of_nat n - 1)%Z by lia.
  cbn [Z.of_nat]. rewrite Z.pow_0_r. reflexivity.
Qed.

(** A network on which every draw of [Math.random()] is 0. *)
Lemma all_attempts_fail_witness :
  1 <= retries_or_default None
  /\ (forall k, k < retries_or_default None ->
        PrimFloat.ltb ((fun _ : nat => 0%float) (draws start + 2 * k + 1))
          0.05%float = true)
  /\ exists w',
       loadSegment (fun _ => 0%float) "segment_360p_001.ts"
         Selector.poorNetwork None start
       = (Ok (gave_up "segment_360p_001.ts" 3), w')
       /\ attempts_made (trace w') = 3
       /\ backoffs (trace w') = [1000; 2000]%Z.
Proof.
  assert (Hpos : 1 <= retries_or_default None) by (cbn; lia).
  assert (Hfail : forall k, k < retries_or_default None ->
            PrimFloat.ltb ((fun _ : nat => 0%float) (draws start + 2 * k + 1))
              0.05%float = true) by (intros k _; reflexivity).
  split; [exact Hpos|]. split; [exact Hfail|].
  destruct (all_attempts_fail (fun _ => 0%float) "segment_360p_001.ts"
              Selector.poorNetwork None start Hpos Hfail)
    as (w' & Hrun & _ & Hcount & Hback & _).
  exists w'. split; [exact Hrun|]. split; [exact Hcount|exact Hback].
Defined.

(** C10: with at least one attempt to make, [loadSegment] never throws,
    whatever the random draws: it returns either the success result with
    the blob or the failure result with its message. *)
Theorem load_segment_never_throws (random_values : nat -> float)
  (segmentUrl : string) (networkCondition : NetworkCondition)
  (retries : option nat) (w : World) :
  1 <= retries_or_default retries ->
  exists r w',
    loadSegment random_values segmentUrl networkCondition retries w = (Ok r, w')
    /\ (r = loaded segmentUrl
        \/ r = gave_up segmentUrl (retries_or_default retries))
    /\ (success r = true /\ data r <> None
        \/ success r = false /\ error r <> None).
Proof.
  intros Hpos. unfold loadSegment. cbv zeta.
  destruct (retry_loop_returns random_values segmentUrl networkCondition
              (retries_or_default retries) (retries_or_default retries) 0 w)
    as (r & w' & Hrun & Hshape); [lia|exact Hpos|].
  exists r, w'. split; [exact Hrun|]. split; [exact Hshape|].
  destruct Hshape as [-> | ->]; [left|right]; split;
    solve [reflexivity | discriminate].
Qed.

Lemma load_segment_never_throws_witness :
  1 <= retries_or_default (Some 2)
  /\ exists r w',
       loadSegment (fun k => if (k <? 2)%nat then 0%float else 0.5%float)
         "segment_360p_001.ts" Selector.goodNetwork (Some 2) start = (Ok r, w')
       /\ (r = loaded "segment_360p_001.ts"
           \/ r = gave_up "segment_360p_001.ts" 2).
Proof.
  assert (Hpos : 1 <= retries_or_default (Some 2)) by (cbn; lia).
  split; [exact Hpos|].
  destruct (load_segment_never_throws
              (fun k => if (k <? 2)%nat then 0%float else 0.5%float)
              "segment_360p_001.ts" Selector.goodNetwork (Some 2) start Hpos)
    as (r & w' & Hrun & Hshape & _).
  exists r, w'. split; [exact Hrun|exact Hshape].
Defined.

End LoaderFacts.

Module TelemetryFacts.
Import Telemetry.

#[local] Open Scope nat_scope.

Section Slices.
Context {A : Type}.

Lemma slice_last_length (n : nat) (l : list A) :
  List.length (slice_last n l) = Nat.min n (List.length l).
Proof. unfold slice_last. rewrite length_skipn. lia. Qed.

Lemma slice_last_short (n : nat) (l : list A) :
  List.length l <= n -> slice_last n l = l.
Proof.
  intros H. unfold slice_last.
  now replace (List.length l - n) with 0 by lia.
Qed.

(** Keeping the last [n] of a window of [n + 1] and appending one element
    is keeping the last [n + 1] of the longer history. *)
Lemma slice_last_snoc (n : nat) (l : list A) (x : A) :
  (slice_last n (slice_last (S n) l) ++ [x])%list
  = slice_last (S n) (l ++ [x]).
Proof.
  destruct (Nat.le_gt_cases (List.length l) n) as [Hshort|Hlong].
  - rewrite (slice_last_short (S n) l) by lia.
    rewrite (slice_last_short n l) by lia.
    rewrite slice_last_short; [reflexivity|].
    rewrite length_app. cbn. lia.
  - unfold slice_last at 1. rewrite slice_last_length.
    unfold slice_last. rewrite skipn_skipn, length_app. cbn [List.length].
    rewrite skipn_app.
    replace (Nat.min (S n) (List.length l) - n + (List.length l - S n))
      with (List.length l - n) by lia.
    replace (List.length l + 1 - S n) with (List.length l - n) by lia.
    replace (List.length l - n - List.length l) with 0 by lia.
    reflexivity.
Qed.

(** The elements kept are a suffix of the history: the oldest go first
    and the order of the others is untouched. *)
Lemma slice_last_suffix (n : nat) (l : list A) :
  exists evicted, l = (evicted ++ slice_last n l)%list
                  /\ List.length evicted = List.length l - n.
Proof.
  exists (firstn (List.length l - n) l). unfold slice_last.
  rewrite firstn_skipn, length_firstn. split; [reflexivity|lia].
Qed.

End Slices.

Lemma logs_after_call (st : PlayerState) (c : Call) :
  logs (log_call st c) = (slice_last 49 (logs st) ++ [entry_of c])%list.
Proof.
  unfold log_call, logEvent, entry_of. now destruct (call_type c).
Qed.

Lemma events_after_call (st : PlayerState) (c : Call) :
  bufferEvents (metrics (log_call st c))
  = if is_severe c
    then (slice_last 19 (bufferEvents (metrics st)) ++ [event_of c])%list
    else bufferEvents (metrics st).
Proof.
  unfold log_call, logEvent, event_of, is_severe. now destruct (call_type c).
Qed.

Lemma record_all_snoc (calls : list Call) (c : Call) (st : PlayerState) :
  record_all (calls ++ [c]) st = log_call (record_all calls st) c.
Proof. unfold record_all. now rewrite fold_left_app. Qed.

(** What the two lists hold after a history of calls. *)
Lemma rings_after_history (calls : list Call) :
  logs (record_all calls initial) = slice_last 50 (map entry_of calls)
  /\ bufferEvents (metrics (record_all calls initial))
     = slice_last 20 (map event_of (filter is_severe calls)).
Proof.
  induction calls as [|c calls [IHlogs IHevents]] using rev_ind.
  - split; reflexivity.
  - rewrite record_all_snoc, logs_after_call, events_after_call.
    rewrite IHlogs, IHevents, filter_app, !map_app. cbn [map filter].
    split; [apply slice_last_snoc|].
    destruct (is_severe c); cbn [map].
    + apply slice_last_snoc.
    + now rewrite app_nil_r.
Qed.

(** C7: however many events are recorded, the log holds at most 50 entries
    and the buffer-event list, which only warnings and errors reach, at
    most 20.  Each is the tail of what was appended to it: on overflow the
    oldest entries are the ones that go, and the others stay in the order
    they were appended. *)
Theorem rings_are_bounded_fifo (calls : list Call) (st : PlayerState)
  (c : Call) :
  let after := record_all calls initial in
  let entries := map entry_of calls in
  let events := map event_of (filter is_severe calls) in
  List.length (logs after) <= 50
  /\ List.length (bufferEvents (metrics after)) <= 20
  /\ logs after = skipn (List.length entries - 50) entries
  /\ bufferEvents (metrics after) = skipn (List.length events - 20) events
  /\ (exists evicted, entries = (evicted ++ logs after)%list
        /\ List.length evicted = List.length entries - 50)
  /\ (exists evicted, events = (evicted ++ bufferEvents (metrics after))%list
        /\ List.length evicted = List.length events - 20)
  /\ List.length (logs (log_call st c)) <= 50
  /\ List.length (bufferEvents (metrics (log_call st c)))
     <= Nat.max 20 (List.length (bufferEvents (metrics st))).
Proof.
  intros after entries events.
  destruct (rings_after_history calls) as [Hlogs Hevents].
  fold after in Hlogs, Hevents. fold entries in Hlogs. fold events in Hevents.
  rewrite Hlogs, Hevents.
  split; [rewrite slice_last_length; lia|].
  split; [rewrite slice_last_length; lia|].
  split; [reflexivity|]. split; [reflexivity|].
  split; [apply slice_last_suffix|]. split; [apply slice_last_suffix|].
  rewrite logs_after_call, events_after_call.
  split.
  - rewrite length_app, slice_last_length. cbn [List.length]. lia.
  - destruct (is_severe c); [|lia].
    rewrite length_app, slice_last_length. cbn [List.length]. lia.
Qed.

End TelemetryFacts.

Module SelectionFacts.
Import Selector Selection.

(** One iteration of the scan returns its index when a test holds and goes
    on below otherwise. *)
Lemma scan_step (qualityLevels : list QualityLevel) (available ratio : float)
  (safe : Z) (i : nat) (q : QualityLevel) :
  nth_error qualityLevels i = Some q ->
  scan qualityLevels available ratio safe (S i)
  = if accepts available ratio safe i q then Ok (Z.of_nat i)
    else scan qualityLevels available ratio safe i.
Proof.
  intros Hq. cbn [scan]. unfold at_index. rewrite Hq. cbn [rbind].
  unfold accepts.
  destruct (Z.of_nat i =? safe), (Z.of_nat i >? safe), (Z.of_nat i <? safe),
    (canSustain available q), (canUpgrade available q), (gt ratio 1.2);
    reflexivity.
Qed.

Lemma scan_range (qualityLevels : list QualityLevel) (available ratio : float)
  (safe : Z) (n : nat) (r : Z) :
  (n <= List.length qualityLevels)%nat ->
  scan qualityLevels available ratio safe n = Ok r ->
  0 <= r <= Z.max 0 (Z.of_nat n - 1).
Proof.
  intros Hn Hr.
  destruct (SelectorFacts.scan_returns_visited qualityLevels available ratio
              safe n Hn) as (r' & Hr' & H0 & H1).
  rewrite Hr in Hr'. injection Hr' as ->. lia.
Qed.

(** What the scan returns: the highest index that passes a test, with the
    level that passed, or 0 when no index does. *)
Lemma scan_inv (qualityLevels : list QualityLevel) (available ratio : float)
  (safe : Z) (n : nat) (r : Z) :
  (n <= List.length qualityLevels)%nat ->
  scan qualityLevels available ratio safe n = Ok r ->
  (forall j q, (Z.to_nat r < j < n)%nat -> nth_error qualityLevels j = Some q ->
     accepts available ratio safe j q = false)
  /\ ((exists q, (Z.to_nat r < n)%nat /\ 0 <= r
         /\ nth_error qualityLevels (Z.to_nat r) = Some q
         /\ accepts available ratio safe (Z.to_nat r) q = true)
      \/ (r = 0 /\ forall j q, (j < n)%nat -> nth_error qualityLevels j = Some q ->
            accepts available ratio safe j q = false)).
Proof.
  revert r. induction n as [|i IH]; intros r Hn Hr.
  - cbn in Hr. injection Hr as <-. split; [intros; lia|]. right.
    split; [reflexivity|]. intros; lia.
  - destruct (SelectorFacts.at_index_in_range qualityLevels i) as [q Hq]; [lia|].
    unfold at_index in Hq.
    destruct (nth_error qualityLevels i) as [q'|] eqn:Eq; [|discriminate].
    injection Hq as ->.
    rewrite (scan_step _ _ _ _ _ _ Eq) in Hr.
    destruct (accepts available ratio safe i q) eqn:Eacc.
    + injection Hr as <-. rewrite Nat2Z.id. split; [intros; lia|]. left.
      exists q. repeat split; trivial; lia.
    + destruct (IH r ltac:(lia) Hr) as [Habove Hcase].
      split.
      * intros j q' Hj Hq'. destruct (Nat.eq_dec j i) as [->|Hne].
        -- rewrite Eq in Hq'. injection Hq' as <-. exact Eacc.
        -- apply (Habove j q'); [lia|exact Hq'].
      * destruct Hcase as [(q' & Hlt & H0 & Hq' & Hacc)|[-> Hnone]].
        -- left. exists q'. repeat split; trivial; lia.
        -- right. split; [reflexivity|]. intros j q' Hj Hq'.
           destruct (Nat.eq_dec j i) as [->|Hne].
           ++ rewrite Eq in Hq'. injection Hq' as <-. exact Eacc.
           ++ apply (Hnone j q'); [lia|exact Hq'].
Qed.

(** Without a starving step-down the selector is the scan. *)
Lemma select_is_scan (qualityLevels : list QualityLevel)
  (networkCondition : NetworkCondition) (bufferHealth : BufferHealth)
  (currentQuality : Z) :
  isStarving bufferHealth
  && (safeCurrentQuality qualityLevels currentQuality >? 0) = false ->
  selectOptimalQuality qualityLevels networkCondition bufferHealth
    currentQuality
  = scan qualityLevels (availableBandwidth networkCondition)
      (bufferRatio bufferHealth)
      (safeCurrentQuality qualityLevels currentQuality)
      (List.length qualityLevels).
Proof.
  intros H. unfold selectOptimalQuality. cbv zeta. rewrite H.
  destruct qualityLevels; reflexivity.
Qed.

Lemma safe_nonneg (qualityLevels : list QualityLevel) (currentQuality : Z) :
  0 <= safeCurrentQuality qualityLevels currentQuality.
Proof. unfold safeCurrentQuality. lia. Qed.

Lemma safe_of_valid (qualityLevels : list QualityLevel) (i : Z) :
  0 <= i <= Z.of_nat (List.length qualityLevels) - 1 ->
  safeCurrentQuality qualityLevels i = i.
Proof. unfold safeCurrentQuality. lia. Qed.

(** The selector goes above the clamped current index only to a level that
    passes the 1.4 headroom test, and only when the buffer ratio exceeds
    1.2: with less buffer it never upgrades. *)
Theorem upgrade_needs_headroom_and_buffer (qualityLevels : list QualityLevel)
  (networkCondition : NetworkCondition) (bufferHealth : BufferHealth)
  (currentQuality r : Z) :
  selectOptimalQuality qualityLevels networkCondition bufferHealth
    currentQuality = Ok r ->
  safeCurrentQuality qualityLevels currentQuality < r ->
  upgradable_at qualityLevels (availableBandwidth networkCondition)
    (Z.to_nat r) = true
  /\ gt (bufferRatio bufferHealth) 1.2%float = true.
Proof.
  intros Hsel Hup.
  assert (Hs := safe_nonneg qualityLevels currentQuality).
  destruct (isStarving bufferHealth
            && (safeCurrentQuality qualityLevels currentQuality >? 0)) eqn:Est.
  - unfold selectOptimalQuality in Hsel.
    destruct (List.length qualityLevels =? 0)%nat.
    + injection Hsel as <-. lia.
    + cbv zeta in Hsel. rewrite Est in Hsel. injection Hsel as <-. lia.
  - rewrite (select_is_scan _ _ _ _ Est) in Hsel.
    destruct (scan_inv _ _ _ _ _ _ (le_n _) Hsel)
      as [_ [(q & _ & _ & Hq & Hacc)|[-> _]]]; [|lia].
    unfold upgradable_at. rewrite Hq. unfold accepts in Hacc.
    rewrite Z2Nat.id in Hacc by lia.
    replace (r =? safeCurrentQuality qualityLevels currentQuality) with false
      in Hacc by (symmetry; apply Z.eqb_neq; lia).
    replace (r <? safeCurrentQuality qualityLevels currentQuality) with false
      in Hacc by (symmetry; apply Z.ltb_ge; lia).
    cbn [andb orb] in Hacc. rewrite orb_false_r in Hacc.
    apply andb_true_iff in Hacc as [Hacc Hratio].
    apply andb_true_iff in Hacc as [_ Hcan]. now split.
Qed.

Lemma upgrade_needs_headroom_and_buffer_witness :
  selectOptimalQuality mockQualities goodNetwork healthyBuffer 0 = Ok 2
  /\ safeCurrentQuality mockQualities 0 < 2
  /\ upgradable_at mockQualities (availableBandwidth goodNetwork) 2 = true
  /\ gt (bufferRatio healthyBuffer) 1.2%float = true.
Proof.
  assert (Hsel : selectOptimalQuality mockQualities goodNetwork healthyBuffer 0
                 = Ok 2) by (vm_compute; reflexivity).
  assert (Hup : safeCurrentQuality mockQualities 0 < 2) by reflexivity.
  split; [exact Hsel|]. split; [exact Hup|].
  exact (upgrade_needs_headroom_and_buffer mockQualities goodNetwork
           healthyBuffer 0 2 Hsel Hup).
Defined.

(** While the buffer is not starving and the current level passes the 0.8
    test, the selector does not go down: it returns the clamped current
    index or a higher one. *)
Theorem sustainable_level_is_kept (qualityLevels : list QualityLevel)
  (networkCondition : NetworkCondition) (bufferHealth : BufferHealth)
  (currentQuality : Z) :
  isStarving bufferHealth = false ->
  sustainable_at qualityLevels (availableBandwidth networkCondition)
    (Z.to_nat (safeCurrentQuality qualityLevels currentQuality)) = true ->
  exists r,
    selectOptimalQuality qualityLevels networkCondition bufferHealth
      currentQuality = Ok r
    /\ safeCurrentQuality qualityLevels currentQuality <= r.
Proof.
  intros Hst Hsus.
  destruct (SelectorFacts.select_returns qualityLevels networkCondition
              bufferHealth currentQuality) as (r & Hsel & Hr0 & _).
  exists r. split; [exact Hsel|].
  rewrite select_is_scan in Hsel by (now rewrite Hst).
  set (safe := safeCurrentQuality qualityLevels currentQuality) in *.
  assert (Hs : 0 <= safe) by apply safe_nonneg.
  unfold sustainable_at in Hsus.
  destruct (nth_error qualityLevels (Z.to_nat safe)) as [q|] eqn:Eq;
    [|discriminate].
  assert (Hlen : (Z.to_nat safe < List.length qualityLevels)%nat).
  { apply nth_error_Some. now rewrite Eq. }
  assert (Hacc : accepts (availableBandwidth networkCondition)
                   (bufferRatio bufferHealth) safe (Z.to_nat safe) q = true).
  { unfold accepts. rewrite Z2Nat.id by lia. rewrite Z.eqb_refl, Hsus.
    reflexivity. }
  destruct (Z_le_gt_dec safe r) as [Hle|Hgt]; [exact Hle|].
  destruct (scan_inv _ _ _ _ _ _ (le_n _) Hsel) as [Habove Hcase].
  rewrite (Habove (Z.to_nat safe) q) in Hacc; [discriminate|lia|exact Eq].
Qed.

Lemma sustainable_level_is_kept_witness :
  isStarving healthyBuffer = false
  /\ sustainable_at mockQualities (availableBandwidth fairNetwork)
       (Z.to_nat (safeCurrentQuality mockQualities 1)) = true
  /\ exists r,
       selectOptimalQuality mockQualities fairNetwork healthyBuffer 1 = Ok r
       /\ 1 <= r.
Proof.
  assert (Hsus : sustainable_at mockQualities (availableBandwidth fairNetwork)
                   (Z.to_nat (safeCurrentQuality mockQualities 1)) = true)
    by (vm_compute; reflexivity).
  split; [reflexivity|]. split; [exact Hsus|].
  exact (sustainable_level_is_kept mockQualities fairNetwork healthyBuffer 1
           eq_refl Hsus).
Defined.

(** When the selector goes down without a starving buffer, it lands on the
    highest level below the current one that passes the 0.8 test, or on 0
    when none does: no level it skipped, the current one included, passes. *)
Theorem downgrade_lands_on_highest_sustainable
  (qualityLevels : list QualityLevel) (networkCondition : NetworkCondition)
  (bufferHealth : BufferHealth) (currentQuality r : Z) :
  isStarving bufferHealth = false ->
  selectOptimalQuality qualityLevels networkCondition bufferHealth
    currentQuality = Ok r ->
  r < safeCurrentQuality qualityLevels currentQuality ->
  (sustainable_at qualityLevels (availableBandwidth networkCondition)
     (Z.to_nat r) = true \/ r = 0)
  /\ forall j, r < j <= safeCurrentQuality qualityLevels currentQuality ->
       sustainable_at qualityLevels (availableBandwidth networkCondition)
         (Z.to_nat j) = false.
Proof.
  intros Hst Hsel Hdown.
  assert (Hrange := SelectorFacts.select_returns qualityLevels networkCondition
                      bufferHealth currentQuality).
  destruct Hrange as (r' & Hsel' & Hr0 & _).
  rewrite Hsel in Hsel'. injection Hsel' as <-.
  rewrite select_is_scan in Hsel by (now rewrite Hst).
  set (safe := safeCurrentQuality qualityLevels currentQuality) in *.
  destruct (scan_inv _ _ _ _ _ _ (le_n _) Hsel) as [Habove Hcase].
  assert (Hskipped : forall j q, r < j <= safe ->
            nth_error qualityLevels (Z.to_nat j) = Some q ->
            accepts (availableBandwidth networkCondition)
              (bufferRatio bufferHealth) safe (Z.to_nat j) q = false).
  { intros j q Hj Hq. apply Habove; [|exact Hq].
    assert ((Z.to_nat j < List.length qualityLevels)%nat)
      by (apply nth_error_Some; now rewrite Hq).
    lia. }
  split.
  - destruct Hcase as [(q & _ & _ & Hq & Hacc)|[-> _]]; [left|now right].
    unfold sustainable_at. rewrite Hq. unfold accepts in Hacc.
    rewrite Z2Nat.id in Hacc by lia.
    rewrite Z.gtb_ltb in Hacc.
    replace (safe <? r) with false in Hacc by (symmetry; apply Z.ltb_ge; lia).
    destruct (canSustain (availableBandwidth networkCondition) q);
      [reflexivity|].
    rewrite !andb_false_r in Hacc. discriminate.
  - intros j Hj. unfold sustainable_at.
    destruct (nth_error qualityLevels (Z.to_nat j)) as [q|] eqn:Eq;
      [|reflexivity].
    specialize (Hskipped j q Hj Eq). unfold accepts in Hskipped.
    rewrite Z2Nat.id in Hskipped by lia.
    destruct (canSustain (availableBandwidth networkCondition) q);
      [|reflexivity].
    destruct (Z.eqb_spec j safe), (Z.ltb_spec j safe);
      cbn in Hskipped; try discriminate; lia.
Qed.

Lemma downgrade_lands_on_highest_sustainable_witness :
  isStarving healthyBuffer = false
  /\ selectOptimalQuality mockQualities fairNetwork healthyBuffer 2 = Ok 1
  /\ 1 < safeCurrentQuality mockQualities 2
  /\ sustainable_at mockQualities (availableBandwidth fairNetwork) 2 = false.
Proof.
  assert (Hsel : selectOptimalQuality mockQualities fairNetwork healthyBuffer 2
                 = Ok 1) by (vm_compute; reflexivity).
  assert (Hdown : 1 < safeCurrentQuality mockQualities 2) by reflexivity.
  split; [reflexivity|]. split; [exact Hsel|]. split; [exact Hdown|].
  apply (proj2 (downgrade_lands_on_highest_sustainable mockQualities
                  fairNetwork healthyBuffer 2 1 eq_refl Hsel Hdown) 2).
  vm_compute. split; [reflexivity|discriminate].
Defined.

(** With thresholds that nest, feeding the scan its own answer as the
    current index gives the same answer. *)
Lemma scan_stable (qualityLevels : list QualityLevel) (available ratio : float)
  (safe : Z) (n : nat) (r : Z) :
  (n <= List.length qualityLevels)%nat ->
  (forall q, In q qualityLevels ->
     canUpgrade available q = true -> canSustain available q = true) ->
  scan qualityLevels available ratio safe n = Ok r ->
  scan qualityLevels available ratio r n = Ok r.
Proof.
  intros Hn Hnest. revert r. induction n as [|i IH]; intros r Hr.
  - cbn in Hr. injection Hr as <-. reflexivity.
  - destruct (nth_error qualityLevels i) as [q|] eqn:Eq;
      [|apply nth_error_None in Eq; lia].
    assert (Hq := Hnest q (nth_error_In _ _ Eq)).
    rewrite (scan_step qualityLevels available ratio safe i q Eq) in Hr.
    rewrite (scan_step qualityLevels available ratio r i q Eq).
    destruct (accepts available ratio safe i q) eqn:Eacc.
    + injection Hr as <-.
      assert (Hsus : canSustain available q = true).
      { unfold accepts in Eacc.
        destruct (canSustain available q); [reflexivity|].
        destruct (canUpgrade available q); [now discriminate (Hq eq_refl)|].
        rewrite !andb_false_r in Eacc. discriminate. }
      unfold accepts. now rewrite Z.eqb_refl, Hsus.
    + assert (Hle : (i <= List.length qualityLevels)%nat) by lia.
      assert (Hrange := scan_range qualityLevels available ratio safe i r
                          Hle Hr).
      destruct (Nat.eq_dec i 0) as [->|Hi].
      * cbn in Hr. injection Hr as <-.
        now destruct (accepts available ratio 0 0 q).
      * assert (Hrej : accepts available ratio r i q = false).
        { unfold accepts in Eacc |- *.
          replace (Z.of_nat i =? r) with false
            by (symmetry; apply Z.eqb_neq; lia).
          replace (Z.of_nat i <? r) with false
            by (symmetry; apply Z.ltb_ge; lia).
          cbn [andb orb]. rewrite orb_false_r.
          destruct (canUpgrade available q); [|now rewrite andb_false_r].
          rewrite (Hq eq_refl) in Eacc.
          destruct (gt ratio 1.2); [|now rewrite andb_false_r].
          exfalso.
          destruct (Z.eqb_spec (Z.of_nat i) safe),
            (Z.ltb_spec (Z.of_nat i) safe),
            (Z.of_nat i >? safe) eqn:G;
            cbn in Eacc; try discriminate.
          rewrite Z.gtb_ltb in G. apply Z.ltb_ge in G. lia. }
        rewrite Hrej. now apply IH; [lia|].
Qed.

(** With a buffer that is not starving, and thresholds that nest (a level
    that passes the 1.4 test passes the 0.8 test), the selector's answer
    is a fixed point: asked again with its own answer as the current
    quality and the same inputs, it returns that answer. *)
Theorem selection_is_stable (qualityLevels : list QualityLevel)
  (networkCondition : NetworkCondition) (bufferHealth : BufferHealth)
  (currentQuality r : Z) :
  isStarving bufferHealth = false ->
  (forall q, In q qualityLevels ->
     canUpgrade (availableBandwidth networkCondition) q = true ->
     canSustain (availableBandwidth networkCondition) q = true) ->
  selectOptimalQuality qualityLevels networkCondition bufferHealth
    currentQuality = Ok r ->
  selectOptimalQuality qualityLevels networkCondition bufferHealth r = Ok r.
Proof.
  intros Hst Hnest Hsel.
  destruct (SelectorFacts.select_returns qualityLevels networkCondition
              bufferHealth currentQuality) as (r' & Hsel' & Hr0 & Hr1).
  rewrite Hsel in Hsel'. injection Hsel' as <-.
  rewrite select_is_scan in Hsel by (now rewrite Hst).
  rewrite select_is_scan by (now rewrite Hst).
  replace (safeCurrentQuality qualityLevels r) with r
    by (unfold safeCurrentQuality; lia).
  now apply scan_stable with
    (safe := safeCurrentQuality qualityLevels currentQuality).
Qed.

Lemma selection_is_stable_witness :
  isStarving healthyBuffer = false
  /\ (forall q, In q mockQualities ->
        canUpgrade (availableBandwidth goodNetwork) q = true ->
        canSustain (availableBandwidth goodNetwork) q = true)
  /\ selectOptimalQuality mockQualities goodNetwork healthyBuffer 0 = Ok 2
  /\ selectOptimalQuality mockQualities goodNetwork healthyBuffer 2 = Ok 2.
Proof.
  assert (Hnest : forall q, In q mockQualities ->
            canUpgrade (availableBandwidth goodNetwork) q = true ->
            canSustain (availableBandwidth goodNetwork) q = true).
  { intros q [<-|[<-|[<-|[]]]] _; vm_compute; reflexivity. }
  assert (Hsel : selectOptimalQuality mockQualities goodNetwork healthyBuffer 0
                 = Ok 2) by (vm_compute; reflexivity).
  split; [reflexivity|]. split; [exact Hnest|]. split; [exact Hsel|].
  exact (selection_is_stable mockQualities goodNetwork healthyBuffer 0 2
           eq_refl Hnest Hsel).
Defined.

(** On a non-empty ladder and a current quality that is a valid index, the
    earlier revision of the selector, which does not clamp, and the
    current one return the same. *)
Theorem earlier_selector_agrees_in_range (qualityLevels : list QualityLevel)
  (networkCondition : NetworkCondition) (bufferHealth : BufferHealth)
  (currentQuality : Z) :
  qualityLevels <> [] ->
  0 <= currentQuality <= Z.of_nat (List.length qualityLevels) - 1 ->
  EarlierSelector.selectOptimalQuality qualityLevels networkCondition
    bufferHealth currentQuality
  = selectOptimalQuality qualityLevels networkCondition bufferHealth
      currentQuality.
Proof.
  intros Hne Hrange.
  unfold EarlierSelector.selectOptimalQuality, selectOptimalQuality.
  rewrite SelectorFacts.nonempty_length by exact Hne. cbv zeta.
  now rewrite safe_of_valid.
Qed.

Lemma earlier_selector_agrees_in_range_witness :
  mockQualities <> []
  /\ 0 <= 2 <= Z.of_nat (List.length mockQualities) - 1
  /\ EarlierSelector.selectOptimalQuality mockQualities poorNetwork
       starvingBuffer 2
     = selectOptimalQuality mockQualities poorNetwork starvingBuffer 2.
Proof.
  assert (Hne : mockQualities <> []) by discriminate.
  assert (Hrange : 0 <= 2 <= Z.of_nat (List.length mockQualities) - 1)
    by (cbn; lia).
  split; [exact Hne|]. split; [exact Hrange|].
  exact (earlier_selector_agrees_in_range mockQualities poorNetwork
           starvingBuffer 2 Hne Hrange).
Defined.

End SelectionFacts.

Module EntriesFacts.
Import Str Manifest Entries.

#[local] Open Scope string_scope.

Lemma own_property_known (o : list (string * string)) (k v : string) :
  own_property o k = Some v -> In k (map fst o).
Proof.
  induction o as [|[k' v'] o IH]; cbn; [discriminate|].
  destruct (String.eqb_spec k k') as [->|Hne]; [now left|].
  intros H. right. now apply IH.
Qed.

Lemma playlist_loads_iff (playlistUrl : string) :
  (exists segs, parseSegmentPlaylist playlistUrl = Ok segs)
  <-> In playlistUrl known_playlists.
Proof.
  split.
  - intros [segs H]. unfold parseSegmentPlaylist in H.
    destruct (own_property MOCK_SEGMENT_PLAYLISTS playlistUrl) as [c|] eqn:E.
    + now apply own_property_known with c.
    + destruct (mem_string playlistUrl inherited_properties); discriminate.
  - intros [<-|[<-|[<-|[<-|[]]]]]; eexists; vm_compute; reflexivity.
Qed.

(** [parseSegmentPlaylist] returns the three segments of a playlist it
    knows by name, and throws for every other name: nothing is fetched. *)
Theorem playlist_loads_only_by_known_name (playlistUrl : string) :
  (In playlistUrl known_playlists ->
     exists segs, parseSegmentPlaylist playlistUrl = Ok segs
                  /\ List.length segs = 3%nat)
  /\ (~ In playlistUrl known_playlists ->
        exists e, parseSegmentPlaylist playlistUrl = Throw e)
  /\ known_playlists = ["stream_360p.m3u8"; "stream_480p.m3u8";
                        "stream_720p.m3u8"; "stream_1080p.m3u8"].
Proof.
  split; [|split; [|reflexivity]].
  - intros [<-|[<-|[<-|[<-|[]]]]]; eexists; split;
      solve [vm_compute; reflexivity].
  - intros Hnot.
    destruct (parseSegmentPlaylist playlistUrl) as [segs|e] eqn:E.
    + exfalso. apply Hnot, playlist_loads_iff. now exists segs.
    + now exists e.
Qed.

Lemma collect_segments_step (line next : string) (rest : list string) :
  collect_segments (line :: next :: rest)
  = if startsWith line "#EXTINF:"
    then next :: collect_segments (next :: rest)
    else collect_segments (next :: rest).
Proof. reflexivity. Qed.

(** [parseSegmentPlaylist]'s loop returns one segment for each [#EXTINF:]
    line that has a line after it, and every segment is a line of the
    playlist after the first: a tag on the last line gives nothing. *)
Theorem segments_follow_tags (ls : list string) :
  List.length (collect_segments ls) = List.length (tag_lines ls)
  /\ (forall seg, In seg (collect_segments ls) -> In seg (tl ls)).
Proof.
  split.
  - unfold tag_lines. induction ls as [|line rest IH]; [reflexivity|].
    destruct rest as [|next rest']; [reflexivity|].
    change (removelast (line :: next :: rest'))
      with (line :: removelast (next :: rest')).
    rewrite collect_segments_step. cbn [filter].
    destruct (startsWith line "#EXTINF:"); cbn [List.length]; now rewrite IH.
  - induction ls as [|line rest IH]; intros seg Hin; [destruct Hin|].
    destruct rest as [|next rest']; [destruct Hin|].
    rewrite collect_segments_step in Hin. cbn [tl].
    destruct (startsWith line "#EXTINF:").
    + destruct Hin as [<-|Hin]; [now left|]. right. now apply IH.
    + right. now apply IH.
Qed.

(** *** The ladder and the entries *)

Lemma parse_entries_urls (ls : list string) (l : list QualityLevel) :
  parse_entries ls = Ok l -> map url l = map snd (valid_entries ls).
Proof.
  revert l. induction ls as [|line rest IH]; intros l;
    cbn [parse_entries valid_entries].
  - now intros [= <-].
  - unfold is_valid_entry.
    destruct (startsWith line "#EXT-X-STREAM-INF:"); cbn [andb]; [|apply IH].
    destruct (bandwidthMatch line) as [bw|]; cbn [has_match andb]; [|apply IH].
    destruct (resolutionMatch line) as [res|]; cbn [has_match andb];
      [|apply IH].
    destruct rest as [|playlistUrl rest']; [apply IH|].
    destruct (parseSegmentPlaylist playlistUrl) as [segs|e]; cbn [rbind];
      [|discriminate].
    destruct (parse_entries (playlistUrl :: rest')) as [more|e]; cbn [rbind];
      [|discriminate].
    intros [= <-]. cbn [map snd hd url quality_of]. f_equal. now apply IH.
Qed.

Lemma parse_entries_ok_iff (ls : list string) :
  (exists l, parse_entries ls = Ok l)
  <-> Forall (fun e => In (snd e) known_playlists) (valid_entries ls).
Proof.
  induction ls as [|line rest IH]; cbn [parse_entries valid_entries].
  - split; [constructor|now exists []].
  - unfold is_valid_entry.
    destruct (startsWith line "#EXT-X-STREAM-INF:"); cbn [andb]; [|exact IH].
    destruct (bandwidthMatch line) as [bw|]; cbn [has_match andb]; [|exact IH].
    destruct (resolutionMatch line) as [res|]; cbn [has_match andb];
      [|exact IH].
    destruct rest as [|playlistUrl rest']; [exact IH|].
    cbn [hd]. split.
    + intros [l H].
      destruct (parseSegmentPlaylist playlistUrl) as [segs|e] eqn:Eseg;
        cbn [rbind] in H; [|discriminate].
      destruct (parse_entries (playlistUrl :: rest')) as [more|e];
        cbn [rbind] in H; [|discriminate].
      constructor.
      * cbn [snd]. apply playlist_loads_iff. now exists segs.
      * apply IH. now exists more.
    + intros H. inversion H as [|e es Hhd Htl]; subst. cbn [snd] in Hhd.
      apply playlist_loads_iff in Hhd as [segs ->].
      apply IH in Htl as [more ->]. cbn [rbind]. eexists. reflexivity.
Qed.

(** A ladder that [parseHLSManifest] returns has one level for each valid
    entry of the manifest, with the line after the entry as its url. *)
Theorem one_level_per_valid_entry (manifestContent : string)
  (qualityLevels : list QualityLevel) :
  parseHLSManifest manifestContent = Ok qualityLevels ->
  Permutation (map url qualityLevels)
    (map snd (valid_entries (non_blank_lines manifestContent)))
  /\ List.length qualityLevels
     = List.length (valid_entries (non_blank_lines manifestContent)).
Proof.
  unfold parseHLSManifest. intros H.
  destruct (parse_entries (non_blank_lines manifestContent)) as [l|e] eqn:E;
    cbn [rbind] in H; [|discriminate].
  injection H as <-.
  assert (Hperm : Permutation (map url (sort by_bandwidth l))
                    (map snd (valid_entries (non_blank_lines manifestContent)))).
  { rewrite <- (parse_entries_urls _ _ E). apply Permutation_map.
    symmetry. apply ManifestFacts.sort_perm. }
  split; [exact Hperm|].
  apply Permutation_length in Hperm. now rewrite !length_map in Hperm.
Qed.

Lemma one_level_per_valid_entry_witness :
  parseHLSManifest MOCK_HLS_MANIFEST = Ok mock_ladder
  /\ List.length mock_ladder
     = List.length (valid_entries (non_blank_lines MOCK_HLS_MANIFEST)).
Proof.
  assert (H : parseHLSManifest MOCK_HLS_MANIFEST = Ok mock_ladder)
    by (vm_compute; reflexivity).
  split; [exact H|].
  exact (proj2 (one_level_per_valid_entry MOCK_HLS_MANIFEST mock_ladder H)).
Defined.

(** [parseHLSManifest] succeeds exactly when every valid entry is followed
    by the name of a known playlist; one entry that names another makes
    the whole parse throw. *)
Theorem parse_succeeds_iff_playlists_known (manifestContent : string) :
  (exists qualityLevels, parseHLSManifest manifestContent = Ok qualityLevels)
  <-> Forall (fun e => In (snd e) known_playlists)
        (valid_entries (non_blank_lines manifestContent)).
Proof.
  rewrite <- parse_entries_ok_iff. unfold parseHLSManifest. split.
  - intros [l H].
    destruct (parse_entries (non_blank_lines manifestContent)) as [l'|e];
      cbn [rbind] in H; [|discriminate].
    now exists l'.
  - intros [l ->]. cbn [rbind]. eexists. reflexivity.
Qed.

(** *** Order of equal bandwidths *)

Lemma insert_filter (b : float) (x : QualityLevel) (l : list QualityLevel) :
  Binary64.nonneg_number (bandwidth x) -> nonneg_bandwidths l ->
  filter (same_bandwidth b) (insert by_bandwidth x l)
  = filter (same_bandwidth b) (x :: l).
Proof.
  intros Nx Nl. induction l as [|y l IH]; [reflexivity|]. cbn [insert].
  inversion Nl as [|y' l' Ny Nl']; subst.
  destruct (PrimFloat.ltb 0 (by_bandwidth x y)) eqn:E; [|reflexivity].
  cbn [filter] in *. rewrite (IH Nl'). unfold same_bandwidth.
  destruct (PrimFloat.eqb (bandwidth x) b) eqn:Ex,
    (PrimFloat.eqb (bandwidth y) b) eqn:Ey; try reflexivity.
  unfold by_bandwidth in E.
  rewrite (Binary64Facts.equal_numbers_tie _ _ b Nx Ny Ex Ey) in E.
  discriminate.
Qed.

Lemma sort_filter (b : float) (l : list QualityLevel) :
  nonneg_bandwidths l ->
  filter (same_bandwidth b) (sort by_bandwidth l) = filter (same_bandwidth b) l.
Proof.
  induction l as [|x l IH]; intros Nl; [reflexivity|].
  inversion Nl as [|x' l' Nx Nl']; subst.
  cbn [sort fold_right]. fold (sort by_bandwidth l).
  rewrite insert_filter by (trivial; now apply ManifestFacts.sort_nonneg).
  cbn [filter]. now rewrite (IH Nl').
Qed.

(** The sort is stable: the levels of one bandwidth are in the ladder in
    the order in which the loop met their entries in the manifest. *)
Theorem equal_bandwidths_keep_manifest_order (manifestContent : string)
  (qualityLevels : list QualityLevel) :
  parseHLSManifest manifestContent = Ok qualityLevels ->
  exists entries,
    parse_entries (non_blank_lines manifestContent) = Ok entries
    /\ Permutation entries qualityLevels
    /\ forall b, filter (same_bandwidth b) qualityLevels
                 = filter (same_bandwidth b) entries.
Proof.
  unfold parseHLSManifest. intros H.
  destruct (parse_entries (non_blank_lines manifestContent)) as [l|e] eqn:E;
    cbn [rbind] in H; [|discriminate].
  injection H as <-. exists l. split; [reflexivity|].
  split; [apply ManifestFacts.sort_perm|]. intros b. apply sort_filter.
  now apply ManifestFacts.parse_entries_nonneg
    with (non_blank_lines manifestContent).
Qed.

Lemma equal_bandwidths_keep_manifest_order_witness :
  exists a b,
    parseHLSManifest manifest_with_backup = Ok [a; b]
    /\ filter (same_bandwidth 800000%float) [a; b] = [a; b]
    /\ url a = "stream_360p.m3u8" /\ url b = "stream_480p.m3u8".
Proof.
  do 2 eexists.
  assert (H : parseHLSManifest manifest_with_backup
              = Ok [quality_of "800000" "640x360" "stream_360p.m3u8"
                      ["segment_360p_001.ts"; "segment_360p_002.ts";
                       "segment_360p_003.ts"];
                    quality_of "800000" "640x360" "stream_480p.m3u8"
                      ["segment_480p_001.ts"; "segment_480p_002.ts";
                       "segment_480p_003.ts"]])
    by (vm_compute; reflexivity).
  split; [exact H|].
  destruct (equal_bandwidths_keep_manifest_order _ _ H)
    as (entries & Hentries & _ & Hsame).
  split; [|split; reflexivity].
  rewrite (Hsame 800000%float).
  vm_compute in Hentries. injection Hentries as <-. reflexivity.
Defined.

(** Two bandwidths that are different integers with the same nearest
    number tie in the sort: the levels keep the order of the manifest, and
    both carry the number 9007199254740992. *)
Example rounded_bandwidths_tie :
  exists a b,
    parseHLSManifest manifest_beyond_2_53 = Ok [a; b]
    /\ url a = "stream_360p.m3u8" /\ url b = "stream_480p.m3u8"
    /\ bandwidth a = 9007199254740992%float
    /\ bandwidth b = 9007199254740992%float.
Proof.
  do 2 eexists. split; [vm_compute; reflexivity|].
  repeat split.
Qed.

(** *** Shape of a level *)

Lemma parse_entries_shape (ls : list string) (l : list QualityLevel) :
  parse_entries ls = Ok l ->
  Forall (fun q => PrimFloat.leb 0%float (bandwidth q) = true
                   /\ startsWith (id q) "quality_" = true
                   /\ parseSegmentPlaylist (url q) = Ok (segments q)) l.
Proof.
  revert l. induction ls as [|line rest IH]; intros l; cbn [parse_entries].
  - intros [= <-]. constructor.
  - destruct (startsWith line "#EXT-X-STREAM-INF:"); [|apply IH].
    destruct (bandwidthMatch line) as [bw|] eqn:Ebw; [|apply IH].
    destruct (resolutionMatch line) as [res|]; [|apply IH].
    destruct rest as [|playlistUrl rest']; [apply IH|].
    destruct (parseSegmentPlaylist playlistUrl) as [segs|e] eqn:Eseg;
      cbn [rbind]; [|discriminate].
    destruct (parse_entries (playlistUrl :: rest')) as [more|e]; cbn [rbind];
      [|discriminate].
    intros [= <-]. constructor; [|now apply IH].
    cbn [bandwidth id url segments quality_of]. split; [|split].
    + apply Binary64Facts.zero_leb, ManifestFacts.parseInt_nonneg.
      now apply ManifestFacts.bandwidthMatch_digits with line.
    + unfold startsWith. simpl. now destruct bw.
    + exact Eseg.
Qed.

(** Every level of a parsed ladder has a bandwidth that is not negative
    and an id that starts with [quality_], and carries the segments of the
    playlist its url names. *)
Theorem parsed_levels_are_well_formed (manifestContent : string)
  (qualityLevels : list QualityLevel) :
  parseHLSManifest manifestContent = Ok qualityLevels ->
  Forall (fun q => PrimFloat.leb 0%float (bandwidth q) = true
                   /\ startsWith (id q) "quality_" = true
                   /\ parseSegmentPlaylist (url q) = Ok (segments q))
    qualityLevels.
Proof.
  unfold parseHLSManifest. intros H.
  destruct (parse_entries (non_blank_lines manifestContent)) as [l|e] eqn:E;
    cbn [rbind] in H; [|discriminate].
  injection H as <-.
  apply Permutation_Forall with l; [apply ManifestFacts.sort_perm|].
  now apply parse_entries_shape with (non_blank_lines manifestContent).
Qed.

Lemma parsed_levels_are_well_formed_witness :
  parseHLSManifest MOCK_HLS_MANIFEST = Ok mock_ladder
  /\ Forall (fun q => PrimFloat.leb 0%float (bandwidth q) = true
                      /\ startsWith (id q) "quality_" = true
                      /\ parseSegmentPlaylist (url q) = Ok (segments q))
       mock_ladder.
Proof.
  assert (H : parseHLSManifest MOCK_HLS_MANIFEST = Ok mock_ladder)
    by (vm_compute; reflexivity).
  split; [exact H|].
  exact (parsed_levels_are_well_formed MOCK_HLS_MANIFEST mock_ladder H).
Defined.

End EntriesFacts.

Module AttemptsFacts.
Import Loader Attempts.

#[local] Open Scope nat_scope.

Section Run.

Variable random_values : nat -> float.
Variable segmentUrl : string.
Variable networkCondition : NetworkCondition.

Lemma retried_attempts_count (n attempt d : nat) :
  attempts_made
    (retried_attempts random_values segmentUrl networkCondition n attempt d)
  = n.
Proof.
  revert attempt d. induction n as [|n IH]; intros attempt d; [reflexivity|].
  cbn [retried_attempts]. unfold attempts_made in *. cbn [filter List.length].
  now rewrite IH.
Qed.

Lemma retried_attempts_backoffs (n attempt d : nat) :
  backoffs
    (retried_attempts random_values segmentUrl networkCondition n attempt d)
  = map (fun i => (2 ^ Z.of_nat i * 1000)%Z) (seq attempt n).
Proof.
  revert attempt d. induction n as [|n IH]; intros attempt d; [reflexivity|].
  cbn [retried_attempts backoffs seq map]. now rewrite IH.
Qed.

(** The loop when [j] attempts fail and the next one succeeds. *)
Lemma retry_loop_succeeds (retries j remaining attempt : nat) (w : World) :
  attempt + remaining = retries ->
  j < remaining ->
  (forall k, k < j ->
     PrimFloat.ltb (random_values (draws w + 2 * k + 1)) 0.05%float = true) ->
  PrimFloat.ltb (random_values (draws w + 2 * j + 1)) 0.05%float = false ->
  retry_loop random_values segmentUrl networkCondition retries
    remaining attempt w
  = ( Ok (loaded segmentUrl),
      mkWorld (draws w + 2 * S j)
        (trace w
         ++ retried_attempts random_values segmentUrl networkCondition
              j attempt (draws w)
         ++ [NetworkDelay (latency networkCondition
                           + random_values (draws w + 2 * j)%nat * 100)%float]) ).
Proof.
  revert remaining attempt w.
  induction j as [|j IH]; intros remaining attempt w Hsum Hlt Hfail Hok;
    (destruct remaining as [|r]; [lia|]);
    cbn [retry_loop]; unfold bind at 1, try_catch;
    rewrite LoaderFacts.try_body_run.
  - replace (draws w + 2 * 0 + 1) with (S (draws w)) in Hok by lia.
    rewrite Hok. unfold ret. cbn [retried_attempts app].
    replace (draws w + 2 * 0) with (draws w) by lia.
    do 2 f_equal. lia.
  - assert (H0 := Hfail 0 ltac:(lia)).
    replace (draws w + 2 * 0 + 1) with (S (draws w)) in H0 by lia.
    rewrite H0. unfold catch_body. cbn [exn_message].
    destruct (Z.eqb_spec (Z.of_nat attempt) (Z.of_nat retries - 1));
      [lia|].
    unfold bind, emit, ret. cbn [draws trace].
    rewrite (IH r (S attempt)); cbn [draws trace]; try lia.
    + f_equal. f_equal; [lia|].
      replace (S (S (draws w)) + 2 * j) with (draws w + 2 * S j) by lia.
      cbn [retried_attempts]. rewrite <- !app_assoc. reflexivity.
    + intros k Hk. specialize (Hfail (S k) ltac:(lia)).
      now replace (S (S (draws w)) + 2 * k + 1)
        with (draws w + 2 * S k + 1) by lia.
    + now replace (S (S (draws w)) + 2 * j + 1)
        with (draws w + 2 * S j + 1) by lia.
Qed.

(** The books of the loop for any draws: how many attempts it made, what
    it drew and how long it backed off. *)
Lemma retry_loop_accounting (retries remaining attempt : nat) (w : World) :
  attempt + remaining = retries ->
  1 <= remaining ->
  exists r w' a,
    retry_loop random_values segmentUrl networkCondition retries
      remaining attempt w = (Ok r, w')
    /\ 1 <= a <= remaining
    /\ attempts_made (trace w') = attempts_made (trace w) + a
    /\ draws w' = draws w + 2 * a
    /\ backoffs (trace w')
       = (backoffs (trace w)
          ++ map (fun i => (2 ^ Z.of_nat i * 1000)%Z) (seq attempt (a - 1)))%list.
Proof.
  revert attempt w.
  induction remaining as [|r IH]; intros attempt w Hsum Hpos; [lia|].
  cbn [retry_loop]. unfold bind at 1, try_catch.
  rewrite LoaderFacts.try_body_run.
  assert (Hone : forall res,
    exists r0 w' a,
      (Ok res : result LoadResult,
       mkWorld (S (S (draws w)))
         (trace w ++ [NetworkDelay (latency networkCondition
                        + random_values (draws w) * 100)%float]))
      = (Ok r0, w')
      /\ 1 <= a <= S r
      /\ attempts_made (trace w') = attempts_made (trace w) + a
      /\ draws w' = draws w + 2 * a
      /\ backoffs (trace w')
         = (backoffs (trace w)
            ++ map (fun i => (2 ^ Z.of_nat i * 1000)%Z)
                 (seq attempt (a - 1)))%list).
  { intros res. exists res. eexists. exists 1. split; [reflexivity|].
    cbn [trace draws].
    rewrite LoaderFacts.attempts_made_app, LoaderFacts.backoffs_app.
    cbn. rewrite !app_nil_r. repeat split; lia. }
  destruct (PrimFloat.ltb (random_values (S (draws w))) 0.05%float).
  - unfold catch_body. cbn [exn_message].
    destruct (Z.eqb_spec (Z.of_nat attempt) (Z.of_nat retries - 1)).
    + unfold ret. apply Hone.
    + unfold bind, emit, ret. cbn [draws trace].
      assert (Hr : 1 <= r) by lia.
      assert (Hsum' : S attempt + r = retries) by lia.
      match goal with
      | |- context [retry_loop _ _ _ _ _ _ ?w2] =>
          destruct (IH (S attempt) w2 Hsum' Hr)
            as (r0 & w' & a & Hrun & Ha & Hcount & Hdraws & Hback)
      end.
      cbn [draws trace] in Hcount, Hdraws, Hback.
      exists r0, w', (S a). split; [exact Hrun|].
      rewrite !LoaderFacts.attempts_made_app in Hcount.
      rewrite !LoaderFacts.backoffs_app in Hback.
      cbn in Hcount. cbn [backoffs app] in Hback.
      split; [lia|]. split; [lia|]. split; [lia|].
      rewrite Hback, !app_nil_r, <- !app_assoc.
      replace (S a - 1) with (S (a - 1)) by lia. reflexivity.
  - unfold ret. apply Hone.
Qed.

End Run.

(** When [j] attempts fail and the next one succeeds, with [j] below
    [retries], [loadSegment] returns the blob after [j + 1] attempts: it
    warned and backed off [2^i * 1000] ms after each failure, for [i] from
    0 to [j - 1], and drew two random numbers per attempt. *)
Theorem first_success_ends_the_retries (random_values : nat -> float)
  (segmentUrl : string) (networkCondition : NetworkCondition)
  (retries : option nat) (w : World) (j : nat) :
  j < retries_or_default retries ->
  (forall k, k < j ->
     PrimFloat.ltb (random_values (draws w + 2 * k + 1)) 0.05%float = true) ->
  PrimFloat.ltb (random_values (draws w + 2 * j + 1)) 0.05%float = false ->
  exists w',
    loadSegment random_values segmentUrl networkCondition retries w
    = (Ok (loaded segmentUrl), w')
    /\ trace w'
       = (trace w
          ++ retried_attempts random_values segmentUrl networkCondition
               j 0 (draws w)
          ++ [NetworkDelay (latency networkCondition
                            + random_values (draws w + 2 * j)%nat * 100)%float])%list
    /\ attempts_made (trace w') = attempts_made (trace w) + j + 1
    /\ backoffs (trace w')
       = (backoffs (trace w)
          ++ map (fun i => (2 ^ Z.of_nat i * 1000)%Z) (seq 0 j))%list
    /\ draws w' = draws w + 2 * (j + 1).
Proof.
  intros Hlt Hfail Hok. unfold loadSegment. cbv zeta.
  rewrite (retry_loop_succeeds random_values segmentUrl networkCondition
             (retries_or_default retries) j (retries_or_default retries) 0 w)
    by (trivial; lia).
  eexists. split; [reflexivity|]. cbn [trace draws].
  split; [reflexivity|].
  rewrite !LoaderFacts.attempts_made_app, !LoaderFacts.backoffs_app.
  rewrite retried_attempts_count, retried_attempts_backoffs.
  cbn [backoffs]. rewrite app_nil_r.
  split; [cbn; lia|]. split; [reflexivity|lia].
Qed.

Lemma first_success_ends_the_retries_witness :
  1 < retries_or_default None
  /\ exists w',
       loadSegment (fun k => if k <? 2 then 0%float else 0.5%float)
         "segment_360p_001.ts" Selector.goodNetwork None start
       = (Ok (loaded "segment_360p_001.ts"), w')
       /\ attempts_made (trace w') = 2
       /\ backoffs (trace w') = [1000%Z].
Proof.
  assert (Hlt : 1 < retries_or_default None) by (cbn; lia).
  split; [exact Hlt|].
  destruct (first_success_ends_the_retries
              (fun k => if k <? 2 then 0%float else 0.5%float)
              "segment_360p_001.ts" Selector.goodNetwork None start 1 Hlt)
    as (w' & Hrun & _ & Hcount & Hback & _).
  - intros k Hk. assert (k = 0) by lia. subst k. reflexivity.
  - reflexivity.
  - exists w'. split; [exact Hrun|]. split; [exact Hcount|exact Hback].
Defined.

(** Whatever the draws, a call with at least one attempt to make makes
    [a] attempts with [1 <= a <= retries], draws exactly [2 * a] random
    numbers, and backs off after each attempt but the last one made, for
    [1000 * (2^(a - 1) - 1)] ms in all: at most
    [1000 * (2^(retries - 1) - 1)]. *)
Theorem attempts_and_backoff_are_bounded (random_values : nat -> float)
  (segmentUrl : string) (networkCondition : NetworkCondition)
  (retries : option nat) (w : World) :
  1 <= retries_or_default retries ->
  exists r w' a,
    loadSegment random_values segmentUrl networkCondition retries w = (Ok r, w')
    /\ 1 <= a <= retries_or_default retries
    /\ attempts_made (trace w') = attempts_made (trace w) + a
    /\ draws w' = draws w + 2 * a
    /\ backoffs (trace w')
       = (backoffs (trace w)
          ++ map (fun i => (2 ^ Z.of_nat i * 1000)%Z) (seq 0 (a - 1)))%list
    /\ (total (backoffs (trace w'))
        = total (backoffs (trace w)) + 1000 * (2 ^ (Z.of_nat a - 1) - 1))%Z
    /\ (total (backoffs (trace w'))
        <= total (backoffs (trace w))
           + 1000 * (2 ^ (Z.of_nat (retries_or_default retries) - 1) - 1))%Z.
Proof.
  intros Hpos. unfold loadSegment. cbv zeta.
  destruct (retry_loop_accounting random_values segmentUrl networkCondition
              (retries_or_default retries) (retries_or_default retries) 0 w)
    as (r & w' & a & Hrun & Ha & Hcount & Hdraws & Hback); [lia|exact Hpos|].
  exists r, w', a. split; [exact Hrun|]. split; [exact Ha|].
  split; [exact Hcount|]. split; [exact Hdraws|]. split; [exact Hback|].
  assert (Htotal : (total (backoffs (trace w'))
            = total (backoffs (trace w)) + 1000 * (2 ^ (Z.of_nat a - 1) - 1))%Z).
  { rewrite Hback, LoaderFacts.total_app, LoaderFacts.total_backoffs.
    replace (Z.of_nat (0 + (a - 1))) with (Z.of_nat a - 1)%Z by lia.
    cbn [Z.of_nat]. now rewrite Z.pow_0_r. }
  split; [exact Htotal|]. rewrite Htotal.
  assert ((2 ^ (Z.of_nat a - 1) <= 2 ^ (Z.of_nat (retries_or_default retries) - 1))%Z)
    by (apply Z.pow_le_mono_r; lia).
  lia.
Qed.

Lemma attempts_and_backoff_are_bounded_witness :
  1 <= retries_or_default (Some 4)
  /\ exists r w' a,
       loadSegment (fun k => if k <? 4 then 0%float else 0.5%float)
         "segment_360p_001.ts" Selector.goodNetwork (Some 4) start = (Ok r, w')
       /\ 1 <= a <= 4
       /\ (total (backoffs (trace w')) <= 7000)%Z.
Proof.
  assert (Hpos : 1 <= retries_or_default (Some 4)) by (cbn; lia).
  split; [exact Hpos|].
  destruct (attempts_and_backoff_are_bounded
              (fun k => if k <? 4 then 0%float else 0.5%float)
              "segment_360p_001.ts" Selector.goodNetwork (Some 4) start Hpos)
    as (r & w' & a & Hrun & Ha & _ & _ & _ & _ & Hbound).
  exists r, w', a. split; [exact Hrun|]. split; [exact Ha|exact Hbound].
Defined.


End AttemptsFacts.

Module PlayerFacts.
Import Selector Player.

(** When no buffered range holds the play position (none is buffered, or
    the position is in a gap), the monitor reports an empty buffer and
    starvation, and keeps the target. *)
Theorem position_outside_buffer_starves (prev : BufferHealth)
  (buffered : TimeRanges) (currentTime : float) :
  forallb (outside currentTime) buffered = true ->
  monitorBuffer prev buffered currentTime
  = mkBufferHealth 0%float (targetBuffer prev) true.
Proof.
  intros Hout. unfold monitorBuffer.
  assert (H : buffered_ahead buffered currentTime = 0%float).
  { induction buffered as [|[s e] rest IH]; [reflexivity|].
    cbn [forallb] in Hout. apply andb_true_iff in Hout as [Hhd Htl].
    unfold outside in Hhd. cbn [fst snd] in Hhd. cbn [buffered_ahead].
    apply negb_true_iff in Hhd. rewrite Hhd. now apply IH. }
  rewrite H. reflexivity.
Qed.

Lemma position_outside_buffer_starves_witness :
  forallb (outside 12%float) [(0%float, 10%float); (20%float, 30%float)] = true
  /\ monitorBuffer healthyBuffer [(0%float, 10%float); (20%float, 30%float)]
       12%float
     = mkBufferHealth 0%float 30%float true.
Proof.
  split; [reflexivity|].
  apply (position_outside_buffer_starves healthyBuffer
           [(0%float, 10%float); (20%float, 30%float)] 12%float).
  reflexivity.
Defined.

(** The first range that holds the play position decides: the buffer is
    what is left of that range, whatever the ranges after it hold, and the
    player starves exactly when that is less than 5. *)
Theorem first_range_with_position_decides (prev : BufferHealth)
  (before after : TimeRanges) (range_start range_end currentTime : float) :
  forallb (outside currentTime) before = true ->
  outside currentTime (range_start, range_end) = false ->
  monitorBuffer prev (before ++ (range_start, range_end) :: after) currentTime
  = mkBufferHealth (range_end - currentTime)%float (targetBuffer prev)
      (PrimFloat.ltb (range_end - currentTime)%float 5%float).
Proof.
  intros Hbefore Hin. unfold monitorBuffer.
  assert (H : buffered_ahead (before ++ (range_start, range_end) :: after)
                currentTime = (range_end - currentTime)%float).
  { induction before as [|[s e] rest IH]; cbn [app buffered_ahead].
    - unfold outside in Hin. cbn [fst snd] in Hin.
      apply negb_false_iff in Hin. now rewrite Hin.
    - cbn [forallb] in Hbefore. apply andb_true_iff in Hbefore as [Hhd Htl].
      unfold outside in Hhd. cbn [fst snd] in Hhd.
      apply negb_true_iff in Hhd. rewrite Hhd. now apply IH. }
  rewrite H. reflexivity.
Qed.

Lemma first_range_with_position_decides_witness :
  forallb (outside 6%float) [(0%float, 5%float)] = true
  /\ outside 6%float (5%float, 10%float) = false
  /\ monitorBuffer healthyBuffer
       [(0%float, 5%float); (5%float, 10%float); (6%float, 60%float)] 6%float
     = mkBufferHealth 4%float 30%float true.
Proof.
  split; [reflexivity|]. split; [reflexivity|].
  exact (first_range_with_position_decides healthyBuffer [(0%float, 5%float)]
           [(6%float, 60%float)] 5%float 10%float 6%float eq_refl eq_refl).
Defined.

Lemma ladder_has_length (levels : list QualityLevel) :
  levels <> [] -> (0 <? List.length levels)%nat = true.
Proof. destruct levels; [congruence|reflexivity]. Qed.

(** The memo returns an index of the ladder, unless an override outside
    the ladder is set. *)
Lemma optimal_in_range (c : Control) :
  qualityLevels c <> [] ->
  override_in_range c ->
  exists optimal,
    optimalQuality c = Ok optimal
    /\ 0 <= optimal <= Z.of_nat (List.length (qualityLevels c)) - 1.
Proof.
  intros Hne Hov. unfold optimalQuality.
  rewrite SelectorFacts.nonempty_length by exact Hne.
  unfold override_in_range in Hov.
  destruct (manualQualityOverride c) as [o|].
  - now exists o.
  - destruct (SelectorFacts.select_returns (qualityLevels c)
                (networkCondition c) (bufferHealth c) (currentQuality c))
      as (r & Hr & H0 & H1).
    exists r. split; [exact Hr|].
    destruct (qualityLevels c); [congruence|]. cbn [List.length] in *. lia.
Qed.

(** After one run of the quality-change effect on a non-empty ladder, with
    no override or one inside the ladder, the current quality is an index
    of the ladder, whatever it was before; the switch counter has gone up
    by one exactly when the quality changed, and the inputs of the
    selection are untouched. *)
Theorem current_quality_is_valid_after_a_cycle
  (switch_message : option QualityLevel -> option QualityLevel -> string)
  (env : Telemetry.Env)
  (c : Control) :
  qualityLevels c <> [] ->
  override_in_range c ->
  exists c',
    onQualityChange switch_message env c = Ok c'
    /\ 0 <= currentQuality c' <= Z.of_nat (List.length (qualityLevels c)) - 1
    /\ optimalQuality c = Ok (currentQuality c')
    /\ Telemetry.switchCount (Telemetry.metrics (shown c'))
       = Telemetry.switchCount (Telemetry.metrics (shown c))
         + (if currentQuality c' =? currentQuality c then 0 else 1)
    /\ qualityLevels c' = qualityLevels c
    /\ manualQualityOverride c' = manualQualityOverride c
    /\ networkCondition c' = networkCondition c
    /\ bufferHealth c' = bufferHealth c.
Proof.
  intros Hne Hov.
  destruct (optimal_in_range c Hne Hov) as (o & Ho & Hrange).
  unfold onQualityChange. rewrite Ho. cbn [rbind].
  rewrite ladder_has_length by exact Hne. rewrite andb_true_r.
  destruct (Z.eqb_spec o (currentQuality c)) as [Heq|Hneq]; cbn [negb].
  - exists c. rewrite Z.eqb_refl. subst o.
    split; [reflexivity|]. split; [lia|]. split; [reflexivity|].
    split; [lia|]. repeat split.
  - eexists. split; [reflexivity|]. cbn [currentQuality qualityLevels
      manualQualityOverride networkCondition bufferHealth shown].
    replace (o =? currentQuality c) with false
      by (symmetry; now apply Z.eqb_neq).
    split; [lia|]. split; [reflexivity|]. split; [|repeat split].
    unfold Telemetry.logEvent, Telemetry.setLogs, Telemetry.setMetrics.
    reflexivity.
Qed.

Lemma current_quality_is_valid_after_a_cycle_witness :
  qualityLevels (test_control 10 goodNetwork healthyBuffer) <> []
  /\ override_in_range (test_control 10 goodNetwork healthyBuffer)
  /\ exists c',
       onQualityChange test_message test_env
         (test_control 10 goodNetwork healthyBuffer) = Ok c'
       /\ 0 <= currentQuality c' <= 2.
Proof.
  assert (Hne : qualityLevels (test_control 10 goodNetwork healthyBuffer) <> [])
    by discriminate.
  assert (Hov : override_in_range (test_control 10 goodNetwork healthyBuffer))
    by exact I.
  split; [exact Hne|]. split; [exact Hov|].
  destruct (current_quality_is_valid_after_a_cycle test_message test_env
              (test_control 10 goodNetwork healthyBuffer) Hne Hov)
    as (c' & Hrun & Hrange & _).
  exists c'. split; [exact Hrun|exact Hrange].
Defined.

(** One run of the effect with a starving buffer, above the lowest level. *)
Lemma starving_cycle
  (switch_message : option QualityLevel -> option QualityLevel -> string)
  (env : Telemetry.Env) (c : Control) :
  manualQualityOverride c = None ->
  isStarving (bufferHealth c) = true ->
  0 < currentQuality c <= Z.of_nat (List.length (qualityLevels c)) - 1 ->
  exists c',
    onQualityChange switch_message env c = Ok c'
    /\ currentQuality c' = currentQuality c - 1
    /\ Telemetry.switchCount (Telemetry.metrics (shown c'))
       = Telemetry.switchCount (Telemetry.metrics (shown c)) + 1
    /\ qualityLevels c' = qualityLevels c
    /\ manualQualityOverride c' = None
    /\ bufferHealth c' = bufferHealth c.
Proof.
  intros Hov Hst Hrange.
  assert (Hne : qualityLevels c <> []).
  { intros E. rewrite E in Hrange. cbn in Hrange. lia. }
  unfold onQualityChange, optimalQuality, selectOptimalQuality.
  rewrite SelectorFacts.nonempty_length by exact Hne. rewrite Hov. cbv zeta.
  rewrite SelectionFacts.safe_of_valid by lia. rewrite Hst.
  replace (currentQuality c >? 0) with true by (symmetry; apply Z.gtb_lt; lia).
  cbn [andb rbind]. rewrite ladder_has_length by exact Hne.
  replace (Z.max 0 (currentQuality c - 1)) with (currentQuality c - 1) by lia.
  replace (currentQuality c - 1 =? currentQuality c) with false
    by (symmetry; apply Z.eqb_neq; lia).
  cbn [negb andb]. eexists. split; [reflexivity|].
  cbn [currentQuality qualityLevels manualQualityOverride bufferHealth shown].
  repeat split; reflexivity.
Qed.

(** While the buffer starves and nothing else changes, every run of the
    effect takes the player one level down and counts one switch: from
    level [k] it takes [k] runs to reach the lowest level, not fewer. *)
Theorem starving_recovery_goes_one_level_per_cycle
  (switch_message : option QualityLevel -> option QualityLevel -> string)
  (envs : list Telemetry.Env) (c : Control) :
  manualQualityOverride c = None ->
  isStarving (bufferHealth c) = true ->
  0 <= currentQuality c <= Z.of_nat (List.length (qualityLevels c)) - 1 ->
  Z.of_nat (List.length envs) <= currentQuality c ->
  exists c',
    cycles switch_message envs c = Ok c'
    /\ currentQuality c' = currentQuality c - Z.of_nat (List.length envs)
    /\ Telemetry.switchCount (Telemetry.metrics (shown c'))
       = Telemetry.switchCount (Telemetry.metrics (shown c))
         + Z.of_nat (List.length envs).
Proof.
  revert c. induction envs as [|env rest IH]; intros c Hov Hst Hrange Hlen.
  - exists c. cbn. repeat split; lia.
  - cbn [List.length] in Hlen.
    destruct (starving_cycle switch_message env c Hov Hst ltac:(lia))
      as (c1 & Hrun & Hcq & Hsw & Hlv & Hov1 & Hbh).
    destruct (IH c1 Hov1) as (c' & Hrest & Hcq' & Hsw').
    + now rewrite Hbh.
    + rewrite Hlv, Hcq. lia.
    + rewrite Hcq. lia.
    + exists c'. cbn [cycles]. rewrite Hrun. cbn [rbind].
      split; [exact Hrest|]. cbn [List.length]. split; lia.
Qed.

Lemma starving_recovery_goes_one_level_per_cycle_witness :
  manualQualityOverride (test_control 2 poorNetwork starvingBuffer) = None
  /\ isStarving (bufferHealth (test_control 2 poorNetwork starvingBuffer)) = true
  /\ exists c',
       cycles test_message [test_env; test_env]
         (test_control 2 poorNetwork starvingBuffer) = Ok c'
       /\ currentQuality c' = 0
       /\ Telemetry.switchCount (Telemetry.metrics (shown c')) = 2.
Proof.
  split; [reflexivity|]. split; [reflexivity|].
  destruct (starving_recovery_goes_one_level_per_cycle test_message [test_env; test_env]
              (test_control 2 poorNetwork starvingBuffer) eq_refl eq_refl)
    as (c' & Hrun & Hcq & Hsw).
  - cbn. lia.
  - cbn. lia.
  - exists c'. split; [exact Hrun|]. split; [exact Hcq|exact Hsw].
Defined.

(** With no override, a buffer that is not starving and thresholds that
    nest, adaptation settles in one run of the effect: a second run on the
    same network and buffer changes nothing, so the quality does not
    oscillate and the switch counter stands. *)
Theorem second_cycle_changes_nothing
  (switch_message : option QualityLevel -> option QualityLevel -> string)
  (env env' : Telemetry.Env)
  (c c' : Control) :
  manualQualityOverride c = None ->
  isStarving (bufferHealth c) = false ->
  (forall q, In q (qualityLevels c) ->
     canUpgrade (availableBandwidth (networkCondition c)) q = true ->
     canSustain (availableBandwidth (networkCondition c)) q = true) ->
  onQualityChange switch_message env c = Ok c' ->
  onQualityChange switch_message env' c' = Ok c'.
Proof.
  intros Hov Hst Hnest Hrun.
  assert (Hfix : forall r,
    selectOptimalQuality (qualityLevels c) (networkCondition c)
      (bufferHealth c) (currentQuality c) = Ok r ->
    selectOptimalQuality (qualityLevels c) (networkCondition c)
      (bufferHealth c) r = Ok r).
  { intros r Hsel.
    destruct (SelectorFacts.select_returns (qualityLevels c)
                (networkCondition c) (bufferHealth c) (currentQuality c))
      as (r' & Hsel' & Hr0 & Hr1).
    rewrite Hsel in Hsel'. injection Hsel' as <-.
    rewrite SelectionFacts.select_is_scan in Hsel by (now rewrite Hst).
    rewrite SelectionFacts.select_is_scan by (now rewrite Hst).
    replace (safeCurrentQuality (qualityLevels c) r) with r
      by (unfold safeCurrentQuality; lia).
    now apply SelectionFacts.scan_stable with
      (safe := safeCurrentQuality (qualityLevels c) (currentQuality c)). }
  unfold onQualityChange in Hrun. unfold optimalQuality in Hrun.
  destruct (List.length (qualityLevels c) =? 0)%nat eqn:Elen.
  - cbn [rbind] in Hrun. apply Nat.eqb_eq in Elen.
    rewrite Elen in Hrun. cbn [Nat.ltb Nat.leb] in Hrun.
    rewrite andb_false_r in Hrun. injection Hrun as <-.
    unfold onQualityChange, optimalQuality. rewrite Elen. cbn [rbind Nat.eqb].
    cbn [Nat.ltb Nat.leb]. now rewrite andb_false_r.
  - rewrite Hov in Hrun.
    destruct (selectOptimalQuality (qualityLevels c) (networkCondition c)
                (bufferHealth c) (currentQuality c)) as [r|e] eqn:Esel;
      cbn [rbind] in Hrun; [|discriminate].
    assert (Hsel2 := Hfix r eq_refl).
    destruct (negb (r =? currentQuality c)
              && (0 <? List.length (qualityLevels c))%nat) eqn:Echg.
    + injection Hrun as <-.
      unfold onQualityChange, optimalQuality.
      cbn [qualityLevels manualQualityOverride networkCondition bufferHealth
           currentQuality].
      rewrite Elen, Hsel2. cbn [rbind]. now rewrite Z.eqb_refl.
    + injection Hrun as <-.
      unfold onQualityChange, optimalQuality.
      rewrite Elen, Hov, Esel. cbn [rbind]. now rewrite Echg.
Qed.

Lemma second_cycle_changes_nothing_witness :
  exists c',
    onQualityChange test_message test_env
      (test_control 0 goodNetwork healthyBuffer) = Ok c'
    /\ currentQuality c' = 2
    /\ onQualityChange test_message test_env c' = Ok c'.
Proof.
  eexists. split; [vm_compute; reflexivity|]. split; [reflexivity|].
  apply (second_cycle_changes_nothing test_message test_env test_env
           (test_control 0 goodNetwork healthyBuffer)).
  - reflexivity.
  - reflexivity.
  - intros q [<-|[<-|[<-|[]]]] _; vm_compute; reflexivity.
  - vm_compute. reflexivity.
Defined.

(** A manual override wins over the selector: on a non-empty ladder, the
    run of the effect that follows [handleQualityOverride] makes the chosen
    index the current quality whatever the network and the buffer say, and
    whether or not the index is one of the ladder. *)
Theorem override_becomes_current
  (switch_message : option QualityLevel -> option QualityLevel -> string)
  (env env' : Telemetry.Env) (c : Control)
  (override : Z) :
  qualityLevels c <> [] ->
  exists c',
    onQualityChange switch_message env'
      (handleQualityOverride env (Some override) c) = Ok c'
    /\ currentQuality c' = override
    /\ manualQualityOverride c' = Some override
    /\ Telemetry.switchCount (Telemetry.metrics (shown c'))
       = Telemetry.switchCount (Telemetry.metrics (shown c))
         + (if override =? currentQuality c then 0 else 1).
Proof.
  intros Hne. unfold onQualityChange, optimalQuality, handleQualityOverride.
  cbn [qualityLevels manualQualityOverride currentQuality shown].
  rewrite SelectorFacts.nonempty_length by exact Hne. cbn [rbind].
  rewrite ladder_has_length by exact Hne. rewrite andb_true_r.
  destruct (Z.eqb_spec override (currentQuality c)) as [Heq|Hneq]; cbn [negb];
    eexists; (split; [reflexivity|]);
    cbn [qualityLevels manualQualityOverride currentQuality shown].
  - split; [now symmetry|]. split; [reflexivity|].
    unfold Telemetry.logEvent, Telemetry.setLogs.
    cbn [Telemetry.metrics]. lia.
  - split; [reflexivity|]. split; reflexivity.
Qed.

Lemma override_becomes_current_witness :
  qualityLevels (test_control 0 poorNetwork starvingBuffer) <> []
  /\ exists c',
       onQualityChange test_message test_env
         (handleQualityOverride test_env (Some 7)
            (test_control 0 poorNetwork starvingBuffer)) = Ok c'
       /\ currentQuality c' = 7.
Proof.
  assert (Hne : qualityLevels (test_control 0 poorNetwork starvingBuffer) <> [])
    by discriminate.
  split; [exact Hne|].
  destruct (override_becomes_current test_message test_env test_env
              (test_control 0 poorNetwork starvingBuffer) 7 Hne)
    as (c' & Hrun & Hcq & _).
  exists c'. split; [exact Hrun|exact Hcq].
Defined.

End PlayerFacts.

Module LoggingFacts.
Import Telemetry.

Lemma log_call_counters (st : PlayerState) (c : Call) :
  currentQuality (metrics (log_call st c)) = currentQuality (metrics st)
  /\ avgBandwidth (metrics (log_call st c)) = avgBandwidth (metrics st)
  /\ droppedFrames (metrics (log_call st c)) = droppedFrames (metrics st)
  /\ switchCount (metrics (log_call st c)) = switchCount (metrics st).
Proof.
  unfold log_call, logEvent. destruct (call_type c); repeat split; reflexivity.
Qed.

(** Logging never touches the counters: after any history of [logEvent]
    calls from any state, the current quality, the average bandwidth, the
    dropped-frame count and the switch count of the metrics are what they
    were; of the metrics only the buffer events change. *)
Theorem logging_leaves_counters (calls : list Call) (st : PlayerState) :
  currentQuality (metrics (record_all calls st)) = currentQuality (metrics st)
  /\ avgBandwidth (metrics (record_all calls st)) = avgBandwidth (metrics st)
  /\ droppedFrames (metrics (record_all calls st)) = droppedFrames (metrics st)
  /\ switchCount (metrics (record_all calls st)) = switchCount (metrics st).
Proof.
  revert st. induction calls as [|c calls IH]; intros st.
  - repeat split; reflexivity.
  - change (record_all (c :: calls) st)
      with (record_all calls (log_call st c)).
    destruct (IH (log_call st c)) as (H1 & H2 & H3 & H4).
    destruct (log_call_counters st c) as (G1 & G2 & G3 & G4).
    rewrite H1, H2, H3, H4. now rewrite G1, G2, G3, G4.
Qed.

End LoggingFacts.
